(** * The posts view set of the forum API (posts/views.py)

    A shallow embedding of [PostViewSet]: the annotated and ordered
    [queryset] behind the listing, the [popular] list route, and the
    [create] / [update] handlers with their tag validation.

    The datastore is an explicit record of table rows.  Handlers are
    computations in a small state-and-exception monad over that store, so
    that "raised before anything was saved" is a statement about the store
    a handler leaves behind. *)

From Stdlib Require Import ZArith String DecimalString List Lia.
From stdpp Require Import base decidable option list sorting gmap strings.

(** ** Rows of the three tables the views read and write *)

(** Timestamps are counted in microseconds, the resolution of a Python
    [datetime]. *)
Definition datetime := Z.

Definition timedelta (days : Z) : Z := (days * 86400000000)%Z.

Record Tag := {
  tag_id : Z;
  tag_name : string
}.

Record Reply := {
  reply_post : Z;
  submit_date : datetime
}.

Record Post := {
  post_id : Z;
  title : string;
  body : string;
  author : Z;
  pinned : bool;
  created_time : datetime;
  tags : gset Z
}.

Record Store := {
  Post_rows : list Post;
  Tag_rows : list Tag;
  Reply_rows : list Reply
}.

(** ** Aggregates: [Max('replies__submit_date')] and [Count('replies')] *)

Definition replies (s : Store) (p : Post) : list Reply :=
  filter (λ r, reply_post r = post_id p) (Reply_rows s).

(** SQL [MAX]: NULL (here [None]) over no rows. *)
Definition Max (ds : list datetime) : option datetime :=
  foldr (λ d acc, Some (from_option (Z.max d) d acc)) None ds.

Definition Count {A} (rows : list A) : Z := Z.of_nat (length rows).

Definition latest_reply_time (s : Store) (p : Post) : option datetime :=
  Max (submit_date <$> replies s p).

Definition num_replies (s : Store) (p : Post) : Z :=
  Count (replies s p).

(** ** [order_by]: a lexicographic sort over comparison columns *)

(** How the database backend collates NULL against a value.  Under a
    descending column [NullsSmallest] puts the rows without a value last
    and [NullsLargest] puts them first.  The settings that pick the
    backend are not part of the sources. *)
Inductive NullCollation := NullsSmallest | NullsLargest.

Definition cmp_bool (a b : bool) : comparison :=
  match a, b with
  | false, true => Lt
  | true, false => Gt
  | _, _ => Eq
  end.

Definition cmp_nullable (nc : NullCollation) (a b : option Z) : comparison :=
  match a, b with
  | None, None => Eq
  | None, Some _ => match nc with NullsSmallest => Lt | NullsLargest => Gt end
  | Some _, None => match nc with NullsSmallest => Gt | NullsLargest => Lt end
  | Some x, Some y => (x ?= y)%Z
  end.

Definition Column (A : Type) := A → A → comparison.

(** A column named ['field']: rows compared by the value of the field. *)
Definition asc {A K} (cmp : K → K → comparison) (field : A → K) : Column A :=
  λ x y, cmp (field x) (field y).

(** A column named ['-field']. *)
Definition desc {A K} (cmp : K → K → comparison) (field : A → K) : Column A :=
  λ x y, cmp (field y) (field x).

Fixpoint lexicographic {A} (cols : list (Column A)) : Column A :=
  λ x y,
  match cols with
  | [] => Eq
  | c :: cols' =>
      match c x y with
      | Eq => lexicographic cols' x y
      | o => o
      end
  end.

(** [not_after c x y]: the ordering [c] allows [x] to stand before [y]. *)
Definition not_after {A} (c : Column A) : relation A :=
  λ x y, c x y ≠ Gt.

Definition order_by {A} (cols : list (Column A)) (rows : list A) : list A :=
  merge_sort (not_after (lexicographic cols)) rows.

(** The laws of a comparison that ranks rows: swapping the arguments
    mirrors the answer, and along a chain [x], [y], [z] in which nothing
    stands after its successor, [x] is not after [z], and [x] ties with
    [z] only if all three tie. *)
Class Ranking {A} (c : Column A) := {
  ranking_flip : ∀ x y, c y x = CompOpp (c x y);
  ranking_chain : ∀ x y z,
    c x y ≠ Gt → c y z ≠ Gt →
    c x z ≠ Gt ∧ (c x z = Eq → c x y = Eq ∧ c y z = Eq)
}.

(** ** Primary keys as the requests and the table see them *)

(** Python's [str] of an integer key: the text by which a query-string
    value names a key. *)
Definition str (z : Z) : string := NilZero.string_of_int (Z.to_int z).

(** The keys the table can hold: signed 64-bit integers.  The backend
    refuses to bind any other integer to a query. *)
Definition in_key_range (pk : Z) : Prop :=
  (- 2 ^ 63 ≤ pk < 2 ^ 63)%Z.

(** ** Field lookups on an annotated, nullable value *)

(** [field__gt=v]: a comparison with NULL is never true. *)
Definition lookup_gt (a : option Z) (v : Z) : bool :=
  match a with
  | Some x => (v <? x)%Z
  | None => false
  end.

Definition lookup_lt (a : option Z) (v : Z) : bool :=
  match a with
  | Some x => (x <? v)%Z
  | None => false
  end.

(** ** Requests, exceptions and the handler monad *)

Record RequestData := {
  title_data : option string;
  body_data : option string;
  pinned_data : option bool;
  tags_data : option (list string)
}.

Record Request := {
  user : Z;
  data : RequestData;
  query_tags : list string
}.

Inductive Exception :=
| ValidationError (detail : list (string * string))
| Http404
| PermissionDenied
| DoesNotExist
| MultipleObjectsReturned
| OverflowError.

(** The three tag errors a handler raises, with the [detail] of the source. *)
Definition EmptyTagSelection : Exception :=
  ValidationError [("标签", "请选择至少一个标签")].

Definition TooManyTags : Exception :=
  ValidationError [("标签", "最多可以选择三个标签")].

Definition UnknownTag : Exception :=
  ValidationError [("标签", "标签不存在")].

Inductive Outcome (A : Type) :=
| Return (a : A)
| Raise (e : Exception).

Arguments Return {A} a.
Arguments Raise {A} e.

(** A handler runs against a store and leaves a store behind, also when
    it raises: nothing is rolled back. *)
Definition View (A : Type) := Store → Outcome A * Store.

Definition ret {A} (a : A) : View A := λ s, (Return a, s).

Definition raise {A} (e : Exception) : View A := λ s, (Raise e, s).

Definition bind {A B} (m : View A) (k : A → View B) : View B :=
  λ s,
  match m s with
  | (Return a, s') => k a s'
  | (Raise e, s') => (Raise e, s')
  end.

Definition try_except {A} (m : View A) (handler : Exception → View A) : View A :=
  λ s,
  match m s with
  | (Raise e, s') => handler e s'
  | r => r
  end.

Notation "'let!' x ':=' m 'in' k" := (bind m (λ x, k))
  (at level 10, x name, m at level 100, k at level 200).

(** Python truthiness of [request.data.get('tags')]: [None] and the empty
    list are falsy. *)
Definition truthy (tags_data : option (list string)) : bool :=
  match tags_data with
  | Some (_ :: _) => true
  | _ => false
  end.

Definition len (tags_data : option (list string)) : nat :=
  from_option length 0%nat tags_data.

Definition names_of (tags_data : option (list string)) : list string :=
  default [] tags_data.

(** [Tag.objects.get(name=name)] *)
Definition Tag_objects_get (name : string) : View Tag :=
  λ s,
  match filter (λ t, tag_name t = name) (Tag_rows s) with
  | [] => (Raise DoesNotExist, s)
  | [t] => (Return t, s)
  | _ => (Raise MultipleObjectsReturned, s)
  end.

(** The loop [for name in tags_data] of [perform_create] and
    [perform_update], appending to the list [tags]. *)
Fixpoint for_name_in (tags_data : list string) (tags_acc : list Tag) : View (list Tag) :=
  match tags_data with
  | [] => ret tags_acc
  | name :: rest =>
      let! tag := try_except (Tag_objects_get name) (λ _, raise UnknownTag) in
      for_name_in rest (tags_acc ++ [tag])
  end.

(** A name resolves when [Tag.objects.get] returns a tag for it: exactly
    one tag row carries the name. *)
Definition resolve (s : Store) (name : string) : option Tag :=
  match Tag_objects_get name s with
  | (Return t, _) => Some t
  | (Raise _, _) => None
  end.

(** The tag rules of the handlers: the count rules ([partial] and an
    absent field skip them), then every name must resolve. *)
Definition count_rules_violated (partial : bool)
    (tags_data : option (list string)) : Prop :=
  ¬ (partial = true ∧ tags_data = None)
  ∧ (truthy tags_data = false ∨ (3 < len tags_data)%nat).

Definition tag_rules_violated (partial : bool) (s : Store)
    (tags_data : option (list string)) : Prop :=
  count_rules_violated partial tags_data
  ∨ Exists (λ name, resolve s name = None) (names_of tags_data).

(** ** What a serializer hands to [save] *)

(** Modelled from the spec: posts/serializers.py is not part of the
    sources.  [PostDetailSerializer] validates the content fields of the
    payload; [tags] and [author] are read-only in it (the docstring of
    [perform_create] says so), so validated data never holds them. *)
Record ValidatedData := {
  v_title : option string;
  v_body : option string;
  v_pinned : option bool
}.

(** The primary key the table hands to the next inserted row. *)
Definition next_pk (s : Store) : Z :=
  (1 + foldr Z.max 0 (post_id <$> Post_rows s))%Z.

(** Modelled from the spec: [serializer.save(author=..., tags=...)] on a
    serializer without an instance inserts one row, owned by [author],
    with [created_time = now] and the given tags as its tag set. *)
Definition save_new (now : datetime) (vd : ValidatedData)
    (author_kw : Z) (tags_kw : list Tag) : View Post :=
  λ s,
  let p := {| post_id := next_pk s;
              title := default "" (v_title vd);
              body := default "" (v_body vd);
              author := author_kw;
              pinned := default false (v_pinned vd);
              created_time := now;
              tags := list_to_set (tag_id <$> tags_kw) |} in
  (Return p, {| Post_rows := Post_rows s ++ [p];
                Tag_rows := Tag_rows s;
                Reply_rows := Reply_rows s |}).

(** Modelled from the spec: [serializer.save(...)] on a serializer bound to
    [instance] overwrites the validated content fields of that row; the
    tag set is replaced only when [tags] is passed. *)
Definition save_instance (instance : Post) (vd : ValidatedData)
    (tags_kw : option (list Tag)) : View Post :=
  λ s,
  let p := {| post_id := post_id instance;
              title := default (title instance) (v_title vd);
              body := default (body instance) (v_body vd);
              author := author instance;
              pinned := default (pinned instance) (v_pinned vd);
              created_time := created_time instance;
              tags := match tags_kw with
                      | Some ts => list_to_set (tag_id <$> ts)
                      | None => tags instance
                      end |} in
  (Return p, {| Post_rows := (λ r, if decide (post_id r = post_id instance)
                                    then p else r) <$> Post_rows s;
                Tag_rows := Tag_rows s;
                Reply_rows := Reply_rows s |}).

(** ** Sample collaborators and stores

    Concrete stand-ins for the collaborators the view set is parametric
    in, and small stores on which the handlers are run. *)

Definition day (n : Z) : datetime := timedelta n.

Definition hour (n : Z) : Z := (n * 3600000000)%Z.

Definition sample_public (p : Post) : bool :=
  bool_decide (title p ≠ "hidden").

Definition sample_validation (partial : bool) (d : RequestData) :
    list (string * string) + ValidatedData :=
  if negb partial && bool_decide (title_data d = None)
  then inl [("title", "This field is required.")]
  else inr {| v_title := title_data d;
              v_body := body_data d;
              v_pinned := pinned_data d |}.

Definition sample_validated : ValidatedData :=
  {| v_title := Some "hello"; v_body := None; v_pinned := None |}.

Definition sample_permission (req : Request) (p : Post) : bool :=
  bool_decide (user req = author p).

Definition sample_post (pk : Z) (t : string) (pin : bool) (created : datetime)
    (ts : list Z) : Post :=
  {| post_id := pk; title := t; body := ""; author := 7; pinned := pin;
     created_time := created; tags := list_to_set ts |}.

Definition sample_tags : list Tag :=
  [ {| tag_id := 1; tag_name := "python" |};
    {| tag_id := 2; tag_name := "django" |};
    {| tag_id := 3; tag_name := "orm" |} ].

Definition sample_request (u : Z) (td : option (list string))
    (q : list string) : Request :=
  {| user := u;
     data := {| title_data := Some "hello"; body_data := None;
                pinned_data := None; tags_data := td |};
     query_tags := q |}.

(** The listing scenario: A pinned without replies, B and C unpinned
    with latest replies on day 5 and day 3. *)
Definition post_A : Post := sample_post 1 "A" true (day 1) [1]%Z.

Definition post_B : Post := sample_post 2 "B" false (day 2) [1; 2]%Z.

Definition post_C : Post := sample_post 3 "C" false (day 4) [3]%Z.

Definition listing_store : Store :=
  {| Post_rows := [post_B; post_A; post_C];
     Tag_rows := sample_tags;
     Reply_rows := [ {| reply_post := 3; submit_date := day 3 |};
                     {| reply_post := 2; submit_date := day 4 |};
                     {| reply_post := 2; submit_date := day 5 |} ] |}.

(** An unpinned post without replies next to the unpinned post B, which
    has replies. *)
Definition post_D : Post := sample_post 9 "D" false (day 1) []%Z.

Definition nulls_store : Store :=
  {| Post_rows := [post_B; post_D];
     Tag_rows := sample_tags;
     Reply_rows := Reply_rows listing_store |}.

(** The popular scenario, read at [day 10]: X with 11 replies and Y with
    2 replies in the last 24 hours, Z with 5 replies that are 3 days
    old. *)
Definition replies_at (pk : Z) (times : list datetime) : list Reply :=
  (λ t, {| reply_post := pk; submit_date := t |}) <$> times.

Definition post_X : Post := sample_post 1 "X" false (day 1) [1]%Z.

Definition post_Y : Post := sample_post 2 "Y" true (day 2) [2]%Z.

Definition post_Z : Post := sample_post 3 "Z" false (day 3) [3]%Z.

Definition post_hidden : Post := sample_post 4 "hidden" false (day 3) [1]%Z.

Definition popular_replies : list Reply :=
  replies_at 1 ((λ k, day 10 - hour k)%Z <$> seqZ 1 11)
  ++ replies_at 2 [(day 10 - hour 2)%Z; (day 10 - hour 20)%Z]
  ++ replies_at 3 (replicate 5 (day 10 - timedelta 3)%Z).

Definition popular_store : Store :=
  {| Post_rows := [post_Z; post_Y; post_X];
     Tag_rows := sample_tags;
     Reply_rows := popular_replies |}.

Definition hidden_store : Store :=
  {| Post_rows := [post_hidden; post_X];
     Tag_rows := sample_tags;
     Reply_rows := replies_at 4 [(day 10 - hour 1)%Z; (day 10 - hour 3)%Z]
                   ++ popular_replies |}.

(** A tag table in which two rows carry the name "orm". *)
Definition duplicate_tags_store : Store :=
  {| Post_rows := [post_B];
     Tag_rows := sample_tags ++ [ {| tag_id := 4; tag_name := "orm" |} ];
     Reply_rows := [] |}.

(** 45 posts without replies: three pages of the listing. *)
Definition many_posts_store : Store :=
  {| Post_rows := (λ k, sample_post k "post" false (day k) []) <$> seqZ 1 45;
     Tag_rows := sample_tags;
     Reply_rows := [] |}.

(** A store in which the pinned flag of every post is set anew. *)
Definition set_pinned (flag : Post → bool) (p : Post) : Post :=
  {| post_id := post_id p; title := title p; body := body p;
     author := author p; pinned := flag p;
     created_time := created_time p; tags := tags p |}.

Definition repin (flag : Post → bool) (s : Store) : Store :=
  {| Post_rows := set_pinned flag <$> Post_rows s;
     Tag_rows := Tag_rows s;
     Reply_rows := Reply_rows s |}.

(** ** The view set *)

Section PostViewSet.

(** The collation of NULL in the configured database backend. *)
Variable null_collation : NullCollation.

(** Modelled from the spec: the row predicate of the [Post.public]
    manager (posts/models.py is not part of the sources). *)
Variable public : Post → bool.

(** Modelled from the spec: [PostDetailSerializer(...).is_valid], with the
    [partial] flag; the left side holds the [detail] of the
    [ValidationError] that [raise_exception=True] raises. *)
Variable run_validation :
  bool → RequestData → list (string * string) + ValidatedData.

(** Modelled from the spec: the object-level check of
    [IsAdminAuthorOrReadOnly] (posts/permissions.py is not part of the
    sources). *)
Variable has_object_permission : Request → Post → bool.

Definition Post_objects (s : Store) : list Post := Post_rows s.

Definition Post_public (s : Store) : list Post :=
  filter (λ p, public p) (Post_rows s).

(** [order_by('-pinned', '-latest_reply_time', '-created_time')] *)
Definition listing_columns (s : Store) : list (Column Post) :=
  [ desc cmp_bool pinned;
    desc (cmp_nullable null_collation) (latest_reply_time s);
    desc Z.compare created_time ].

(** The class attribute [queryset]; [restrict] stands for the filters a
    request adds to the query before it is evaluated. *)
Definition queryset (s : Store) (restrict : list Post → list Post) : list Post :=
  order_by (listing_columns s) (restrict (Post_objects s)).

(** [filter_fields = ('tags',)]: the filter set builds a multiple-choice
    filter over the related tags, whose choices are named by primary
    key.  A value is a valid choice when it is the text of the key of a
    stored tag; values that are not make the filter form invalid. *)
Definition valid_choice (s : Store) (value : string) : Prop :=
  Exists (λ t, str (tag_id t) = value) (Tag_rows s).

(** The tags the values choose. *)
Definition chosen_tags (s : Store) (values : list string) : list Tag :=
  filter (λ t, str (tag_id t) ∈ values) (Tag_rows s).

(** A post passes when it is related to one of the chosen tags. *)
Definition has_tag_among (chosen : list Tag) (p : Post) : Prop :=
  Exists (λ t, tag_id t ∈ tags p) chosen.

(** No value, no restriction; an invalid form, no results; otherwise the
    posts related to at least one chosen tag, each once. *)
Definition tags_filter (s : Store) (values : list string)
    (rows : list Post) : list Post :=
  match values with
  | [] => rows
  | _ =>
      if decide (Forall (valid_choice s) values)
      then filter (has_tag_among (chosen_tags s values)) rows
      else []
  end.

Definition filter_queryset (req : Request) (s : Store) : list Post :=
  queryset s (tags_filter s (query_tags req)).

(** The inherited [list] action, before pagination. *)
Definition list_posts (req : Request) (s : Store) : list Post :=
  filter_queryset req s.

(** [get_object]: the row with the given primary key among the filtered
    queryset, then the object permission.  The table holds 64-bit keys,
    so a key beyond that range is the key of no stored row; the backend
    refuses to bind it to the query, and its [OverflowError] is not one
    of the exceptions the lookup turns into [Http404]. *)
Definition get_object (req : Request) (pk : Z) : View Post :=
  λ s,
  match head (filter (λ p, post_id p = pk) (filter_queryset req s)) with
  | None =>
      if decide (in_key_range pk) then (Raise Http404, s)
      else (Raise OverflowError, s)
  | Some p =>
      if has_object_permission req p then (Return p, s)
      else (Raise PermissionDenied, s)
  end.

Definition is_valid (partial : bool) (d : RequestData) : View ValidatedData :=
  match run_validation partial d with
  | inl errors => raise (ValidationError errors)
  | inr vd => ret vd
  end.

Definition perform_create (now : datetime) (req : Request)
    (serializer : ValidatedData) : View Post :=
  let tags_data := tags_data (data req) in
  if negb (truthy tags_data) then raise EmptyTagSelection
  else if (3 <? len tags_data)%nat then raise TooManyTags
  else
    let! tags := for_name_in (names_of tags_data) [] in
    save_new now serializer (user req) tags.

Definition create (now : datetime) (req : Request) : View Post :=
  let! serializer := is_valid false (data req) in
  perform_create now req serializer.

Definition perform_update (req : Request) (instance : Post)
    (serializer : ValidatedData) : View Post :=
  let tags_data := tags_data (data req) in
  if truthy tags_data then
    let! tags := for_name_in (names_of tags_data) [] in
    save_instance instance serializer (Some tags)
  else save_instance instance serializer None.

Definition update (req : Request) (pk : Z) (partial : bool) : View Post :=
  let tags_data := tags_data (data req) in
  let! _ :=
    if partial && bool_decide (tags_data = None) then ret tt
    else if negb (truthy tags_data) then raise EmptyTagSelection
    else if (3 <? len tags_data)%nat then raise TooManyTags
    else ret tt in
  let! instance := get_object req pk in
  let! serializer := is_valid partial (data req) in
  perform_update req instance serializer.

(** The [popular] list route.  [now()] is read twice: [now_gt] is the
    reading behind [latest_reply_time__gt], [now_lt] the one behind
    [latest_reply_time__lt]. *)
Definition popular_filter (now_gt now_lt : datetime) (s : Store) (p : Post) : bool :=
  (0 <? num_replies s p)%Z
  && lookup_gt (latest_reply_time s p) (now_gt - timedelta 2)%Z
  && lookup_lt (latest_reply_time s p) now_lt.

Definition popular_columns (s : Store) : list (Column Post) :=
  [ desc Z.compare (num_replies s);
    desc (cmp_nullable null_collation) (latest_reply_time s) ].

Definition popular (now_gt now_lt : datetime) (s : Store) : list Post :=
  take 10 (order_by (popular_columns s)
             (filter (λ p, popular_filter now_gt now_lt s p) (Post_public s))).

(** [retrieve]: the detail view of one post. *)
Definition retrieve (req : Request) (pk : Z) : View Post :=
  let! instance := get_object req pk in
  ret instance.

(** ** [PostPagination] *)

Definition page_size : nat := 20.

(** The paginator's page count for [count] rows: the rows in pages of
    [page_size]; an empty listing still has its first page. *)
Definition num_pages (count : nat) : nat :=
  (Nat.max 1 count + page_size - 1) / page_size.

(** The envelope of [get_paginated_response]; a link is the number of
    the page it leads to. *)
Record Response := {
  count : nat;
  next : option nat;
  previous : option nat;
  posts : list Post
}.

(** [paginate_queryset]: the rows of page [number], or nothing when there
    is no such page. *)
Definition paginate_queryset (number : nat) (rows : list Post) : option (list Post) :=
  if (1 <=? number)%nat && (number <=? num_pages (length rows))%nat
  then Some (take page_size (drop ((number - 1) * page_size) rows))
  else None.

Definition get_next_link (number : nat) (rows : list Post) : option nat :=
  if (number <? num_pages (length rows))%nat then Some (S number) else None.

Definition get_previous_link (number : nat) : option nat :=
  if (1 <? number)%nat then Some (number - 1)%nat else None.

Definition get_paginated_response (number : nat) (rows data : list Post) : Response :=
  {| count := length rows;
     next := get_next_link number rows;
     previous := get_previous_link number;
     posts := data |}.

(** The inherited [list] action for page [number] of the listing. *)
Definition list_page (req : Request) (number : nat) : View Response :=
  λ s,
  let rows := filter_queryset req s in
  match paginate_queryset number rows with
  | None => (Raise Http404, s)
  | Some page => (Return (get_paginated_response number rows page), s)
  end.

(** * Facts about the ordering machinery *)

Section rankings.
Context {A : Type}.

Lemma ranking_refl (c : Column A) `{!Ranking c} x : c x x = Eq.
Proof.
  pose proof (ranking_flip (c:=c) x x) as Hflip.
  destruct (c x x); simpl in Hflip; congruence.
Qed.

Lemma ranking_Lt_Gt (c : Column A) `{!Ranking c} x y : c x y = Lt → c y x = Gt.
Proof. intros Hxy. by rewrite (ranking_flip (c:=c) x y), Hxy. Qed.

#[global] Instance not_after_total (c : Column A) `{!Ranking c} :
  Total (not_after c).
Proof.
  intros x y. unfold not_after. rewrite (ranking_flip (c:=c) x y).
  destruct (c x y); simpl; [left | left | right]; congruence.
Qed.

#[global] Instance not_after_trans (c : Column A) `{!Ranking c} :
  Transitive (not_after c).
Proof. intros x y z Hxy Hyz. by apply (ranking_chain (c:=c) x y z). Qed.

#[global] Instance asc_ranking {K} (cmp : K → K → comparison) (f : A → K)
  `{!Ranking cmp} : Ranking (asc cmp f).
Proof.
  split; unfold asc.
  - intros x y. apply ranking_flip.
  - intros x y z. apply ranking_chain.
Qed.

#[global] Instance desc_ranking {K} (cmp : K → K → comparison) (f : A → K)
  `{!Ranking cmp} : Ranking (desc cmp f).
Proof.
  split; unfold desc.
  - intros x y. apply ranking_flip.
  - intros x y z Hxy Hyz.
    destruct (ranking_chain (c:=cmp) (f z) (f y) (f x) Hyz Hxy) as [Hzx Hties].
    split; [done | intros Heq; destruct (Hties Heq); done].
Qed.

Lemma lexicographic_ranking (cols : list (Column A)) :
  Forall Ranking cols → Ranking (lexicographic cols).
Proof.
  induction 1 as [|c cols Hc _ IH]; split; simpl.
  - done.
  - done.
  - intros x y. rewrite (ranking_flip (c:=c) x y).
    destruct (c x y); simpl; [apply ranking_flip | done | done].
  - intros x y z Hxy Hyz.
    assert (c x y ≠ Gt) as Hcxy by (destruct (c x y); congruence).
    assert (c y z ≠ Gt) as Hcyz by (destruct (c y z); congruence).
    destruct (ranking_chain (c:=c) x y z Hcxy Hcyz) as [Hcxz Hties].
    destruct (c x z) eqn:Exz; [| split; congruence | done].
    destruct (Hties eq_refl) as [Exy Eyz].
    rewrite Exy in *. rewrite Eyz in *.
    by apply ranking_chain.
Qed.

Lemma order_by_Permutation (cols : list (Column A)) rows :
  order_by cols rows ≡ₚ rows.
Proof. apply merge_sort_Permutation. Qed.

Lemma order_by_StronglySorted (cols : list (Column A)) rows :
  Forall Ranking cols →
  StronglySorted (not_after (lexicographic cols)) (order_by cols rows).
Proof.
  intros Hcols. pose proof (lexicographic_ranking cols Hcols).
  apply StronglySorted_merge_sort; apply _.
Qed.

Lemma StronglySorted_lookup (R : relation A) l i j x y :
  StronglySorted R l → l !! i = Some x → l !! j = Some y → (i < j)%nat → R x y.
Proof.
  intros Hl. revert i j. induction Hl as [|z l Hl IH Hz]; intros i j Hi Hj Hij.
  - by rewrite lookup_nil in Hi.
  - destruct j as [|j]; [lia |].
    destruct i as [|i]; simpl in *.
    + injection Hi as <-. eapply Forall_lookup_1; eauto.
    + apply (IH i j); [done | done | lia].
Qed.

(** A row that ranks strictly before another stands before it in the
    sorted result, wherever the two occur. *)
Lemma order_by_precedes (cols : list (Column A)) rows i j x y :
  Forall Ranking cols →
  order_by cols rows !! i = Some x →
  order_by cols rows !! j = Some y →
  lexicographic cols x y = Lt →
  (i < j)%nat.
Proof.
  intros Hcols Hi Hj Hlt.
  pose proof (lexicographic_ranking cols Hcols) as HR.
  pose proof (order_by_StronglySorted cols rows Hcols) as Hsorted.
  destruct (decide (i < j)%nat) as [|Hge]; [done | exfalso].
  destruct (decide (i = j)) as [->|Hne].
  - rewrite Hi in Hj. injection Hj as ->.
    rewrite (ranking_refl (lexicographic cols)) in Hlt. discriminate.
  - assert (j < i)%nat as Hji by lia.
    pose proof (StronglySorted_lookup _ _ _ _ _ _ Hsorted Hj Hi Hji) as Hyx.
    apply Hyx. by apply ranking_Lt_Gt.
Qed.

End rankings.

#[global] Instance Z_compare_ranking : Ranking (A:=Z) Z.compare.
Proof.
  split.
  - intros x y. apply Z.compare_antisym.
  - intros x y z Hxy Hyz.
    destruct (Z.compare_spec x y), (Z.compare_spec y z), (Z.compare_spec x z);
      try done; try lia; split; (done || lia || (intros _; split; lia)).
Qed.

#[global] Instance cmp_bool_ranking : Ranking cmp_bool.
Proof.
  split.
  - by intros [] [].
  - by intros [] [] [].
Qed.

#[global] Instance cmp_nullable_ranking nc : Ranking (cmp_nullable nc).
Proof.
  split.
  - intros [x|] [y|]; destruct nc; simpl; try done; apply Z.compare_antisym.
  - intros [x|] [y|] [z|]; destruct nc; simpl; try done;
      apply (ranking_chain (c:=Z.compare)).
Qed.

(** * The listing *)

Lemma listing_columns_ranking s : Forall Ranking (listing_columns s).
Proof. unfold listing_columns. repeat apply Forall_cons_2; [apply _ .. | apply Forall_nil_2]. Qed.

Lemma popular_columns_ranking s : Forall Ranking (popular_columns s).
Proof. unfold popular_columns. repeat apply Forall_cons_2; [apply _ .. | apply Forall_nil_2]. Qed.

Lemma list_posts_Permutation req s :
  list_posts req s ≡ₚ tags_filter s (query_tags req) (Post_rows s).
Proof. apply order_by_Permutation. Qed.

Lemma tags_filter_subseteq s values rows x :
  x ∈ tags_filter s values rows → x ∈ rows.
Proof.
  unfold tags_filter. destruct values as [|v values]; [done |].
  destruct (decide _); [| by intros ?%elem_of_nil].
  by intros [_ Hx]%list_elem_of_filter.
Qed.

(** Rows that can be laid out so that each ranks strictly before all
    later ones come out of [order_by] in exactly that layout. *)
Lemma order_by_unique {A} (cols : list (Column A)) rows l :
  Forall Ranking cols →
  rows ≡ₚ l →
  StronglySorted (λ x y, lexicographic cols x y = Lt) l →
  order_by cols rows = l.
Proof.
  intros Hcols Hperm Hl.
  pose proof (lexicographic_ranking cols Hcols) as HR.
  apply (StronglySorted_unique_strong (not_after (lexicographic cols))).
  - intros x1 x2 Hx1 Hx2 H12 H21.
    rewrite order_by_Permutation, Hperm in Hx1.
    apply list_elem_of_lookup in Hx1 as [i Hi].
    apply list_elem_of_lookup in Hx2 as [j Hj].
    destruct (lt_eq_lt_dec i j) as [[Hlt| ->]|Hlt].
    + pose proof (StronglySorted_lookup _ _ _ _ _ _ Hl Hi Hj Hlt) as Hs.
      apply (ranking_Lt_Gt (lexicographic cols)) in Hs. by destruct H21.
    + congruence.
    + pose proof (StronglySorted_lookup _ _ _ _ _ _ Hl Hj Hi Hlt) as Hs.
      apply (ranking_Lt_Gt (lexicographic cols)) in Hs. by destruct H12.
  - by apply order_by_StronglySorted.
  - clear Hperm. induction Hl as [|x l Hl IH Hx]; constructor; [done |].
    eapply Forall_impl; [exact Hx |]. intros y Hy. unfold not_after. congruence.
  - by rewrite order_by_Permutation.
Qed.

Lemma order_by_two {A} (cols : list (Column A)) rows a b :
  Forall Ranking cols →
  rows ≡ₚ [a; b] →
  lexicographic cols a b = Lt →
  order_by cols rows = [a; b].
Proof.
  intros Hcols Hperm Hab. apply order_by_unique; [done | done |].
  repeat first [apply SSorted_cons | apply SSorted_nil
               | apply Forall_cons_2 | apply Forall_nil_2 | assumption].
Qed.

Lemma order_by_three {A} (cols : list (Column A)) rows a b c :
  Forall Ranking cols →
  rows ≡ₚ [a; b; c] →
  lexicographic cols a b = Lt →
  lexicographic cols a c = Lt →
  lexicographic cols b c = Lt →
  order_by cols rows = [a; b; c].
Proof.
  intros Hcols Hperm Hab Hac Hbc. apply order_by_unique; [done | done |].
  repeat first [apply SSorted_cons | apply SSorted_nil
               | apply Forall_cons_2 | apply Forall_nil_2 | assumption].
Qed.

(** C1, as the code has it: the listing is a rearrangement of the
    (filtered) posts in the composite order (pinned DESC,
    latest_reply_time DESC, created_time DESC): a pinned post stands
    before every unpinned one; with equal pin status the post with the
    more recent latest reply stands first; where the posts without
    replies stand within a pin status is the backend's ordering of NULL:
    after the posts with replies where NULL collates below every value,
    before them where it collates above; with equal pin status and equal
    latest reply the later created post stands first.  On every backend
    A (pinned, no replies, created on day 1), B (unpinned, latest reply
    on day 5) and C (unpinned, latest reply on day 3) are listed as
    A, B, C. *)
Theorem listing_composite_order (s : Store) (req : Request) :
  list_posts req s ≡ₚ tags_filter s (query_tags req) (Post_rows s)
  ∧ (∀ i j p q,
       list_posts req s !! i = Some p →
       list_posts req s !! j = Some q →
       (pinned p = true → pinned q = false → (i < j)%nat)
       ∧ (pinned p = pinned q →
          ∀ tp tq, latest_reply_time s p = Some tp →
          latest_reply_time s q = Some tq → (tq < tp)%Z →
          (i < j)%nat)
       ∧ (null_collation = NullsSmallest →
          pinned p = pinned q →
          is_Some (latest_reply_time s p) → latest_reply_time s q = None →
          (i < j)%nat)
       ∧ (null_collation = NullsLargest →
          pinned p = pinned q →
          latest_reply_time s p = None → is_Some (latest_reply_time s q) →
          (i < j)%nat)
       ∧ (pinned p = pinned q →
          latest_reply_time s p = latest_reply_time s q →
          (created_time q < created_time p)%Z →
          (i < j)%nat))
  ∧ (∀ a b c t0,
       query_tags req = [] →
       Post_rows s ≡ₚ [a; b; c] →
       pinned a = true → latest_reply_time s a = None →
       created_time a = (t0 + timedelta 1)%Z →
       pinned b = false → latest_reply_time s b = Some (t0 + timedelta 5)%Z →
       pinned c = false → latest_reply_time s c = Some (t0 + timedelta 3)%Z →
       list_posts req s = [a; b; c]).
Proof.
  split; [apply list_posts_Permutation |]. split.
  - intros i j p q Hp Hq.
    unfold list_posts, filter_queryset, queryset in Hp, Hq.
    split; [| split; [| split; [| split]]].
    + intros Pp Pq.
      eapply order_by_precedes; eauto using listing_columns_ranking.
      simpl. unfold desc. by rewrite Pp, Pq.
    + intros Ppq tp tq Lp Lq Hlt.
      eapply order_by_precedes; eauto using listing_columns_ranking.
      simpl. unfold desc. rewrite Ppq, (ranking_refl cmp_bool), Lp, Lq.
      simpl. apply Z.compare_lt_iff in Hlt. by rewrite Hlt.
    + intros Hnull Ppq [tp Lp] Lq.
      eapply order_by_precedes; eauto using listing_columns_ranking.
      simpl. unfold desc.
      by rewrite Ppq, (ranking_refl cmp_bool), Lp, Lq, Hnull.
    + intros Hnull Ppq Lp [tq Lq].
      eapply order_by_precedes; eauto using listing_columns_ranking.
      simpl. unfold desc.
      by rewrite Ppq, (ranking_refl cmp_bool), Lp, Lq, Hnull.
    + intros Ppq Lpq Cpq.
      eapply order_by_precedes; eauto using listing_columns_ranking.
      simpl. unfold desc.
      rewrite Ppq, (ranking_refl cmp_bool), Lpq,
        (ranking_refl (cmp_nullable null_collation)).
      apply Z.compare_lt_iff in Cpq. by rewrite Cpq.
  - intros a b c t0 Hq Hrows Pa La Ca Pb Lb Pc Lc.
    unfold list_posts, filter_queryset, queryset. rewrite Hq. simpl.
    apply order_by_three;
      [apply listing_columns_ranking | done | | |];
      simpl; unfold desc.
    + by rewrite Pa, Pb.
    + by rewrite Pa, Pc.
    + rewrite Pb, Pc, Lb, Lc. simpl.
      assert (t0 + timedelta 3 < t0 + timedelta 5)%Z as Hlt
        by (unfold timedelta; lia).
      apply Z.compare_lt_iff in Hlt. by rewrite Hlt.
Qed.

(** C8, as the code has it: the [tags] filter takes primary keys.  A
    listing request whose values are all keys of stored tags gets the
    ranking of exactly the posts related to at least one of those tags
    (the restriction comes first, the result is that restricted
    collection in listing order); a request with a value that is not the
    key of a stored tag, a tag name for instance, gets an empty listing;
    a request without the filter gets all posts. *)
Theorem listing_tag_filter (s : Store) (req : Request) :
  (query_tags req ≠ [] →
   Forall (λ v, ∃ t, t ∈ Tag_rows s ∧ str (tag_id t) = v) (query_tags req) →
     list_posts req s
     ≡ₚ filter (has_tag_among (chosen_tags s (query_tags req))) (Post_rows s)
     ∧ (∀ p, p ∈ list_posts req s ↔
          p ∈ Post_rows s
          ∧ ∃ t, t ∈ Tag_rows s ∧ str (tag_id t) ∈ query_tags req
                 ∧ tag_id t ∈ tags p))
  ∧ (Exists (λ v, ∀ t, t ∈ Tag_rows s → str (tag_id t) ≠ v) (query_tags req) →
     list_posts req s = [])
  ∧ (query_tags req = [] → list_posts req s ≡ₚ Post_rows s)
  ∧ StronglySorted (not_after (lexicographic (listing_columns s)))
      (list_posts req s).
Proof.
  split; [| split; [| split]].
  - intros Hsome Hvalid.
    assert (Forall (valid_choice s) (query_tags req)) as Hform.
    { eapply Forall_impl; [exact Hvalid |]. intros v (t & Ht & Hv).
      unfold valid_choice. rewrite Exists_exists. eauto. }
    assert (list_posts req s
            ≡ₚ filter (has_tag_among (chosen_tags s (query_tags req)))
                 (Post_rows s)) as Hperm.
    { rewrite list_posts_Permutation. unfold tags_filter.
      destruct (query_tags req); [done |]. by rewrite decide_True. }
    split; [done |].
    intros p. rewrite Hperm, list_elem_of_filter.
    unfold has_tag_among, chosen_tags. rewrite Exists_exists.
    split.
    + intros [(t & Ht & Hrel) Hp]. apply list_elem_of_filter in Ht as [Hv Ht].
      eauto 10.
    + intros (Hp & t & Ht & Hv & Hrel). split; [| done].
      exists t. split; [| done]. by apply list_elem_of_filter.
  - intros Hbad.
    assert (¬ Forall (valid_choice s) (query_tags req)) as Hform.
    { intros Hall. apply Exists_exists in Hbad as (v & Hv & Hnone).
      rewrite Forall_forall in Hall. specialize (Hall v Hv).
      unfold valid_choice in Hall.
      apply Exists_exists in Hall as (t & Ht & Heq). by apply (Hnone t). }
    apply Permutation_nil_r. rewrite list_posts_Permutation.
    unfold tags_filter.
    destruct (query_tags req); [by apply Exists_nil in Hbad |].
    by rewrite decide_False.
  - intros Hnone. rewrite list_posts_Permutation, Hnone. done.
  - apply order_by_StronglySorted, listing_columns_ranking.
Qed.

(** * The popular list route *)

Lemma timedelta_2_is_48h : timedelta 2 = (48 * 3600000000)%Z.
Proof. reflexivity. Qed.

Lemma Max_None ds : Max ds = None → ds = [].
Proof. by destruct ds. Qed.

Lemma Max_Some ds t :
  Max ds = Some t → t ∈ ds ∧ Forall (λ d, (d ≤ t)%Z) ds.
Proof.
  revert t. induction ds as [|d ds IH]; intros t; simpl; [done |].
  intros [= <-]. destruct (Max ds) as [m|] eqn:Hm; simpl.
  - destruct (IH m eq_refl) as [Hin Hall]. split.
    + destruct (Z.max_spec d m) as [[_ ->]|[_ ->]];
        [by apply list_elem_of_further | apply list_elem_of_here].
    + constructor; [lia |].
      eapply Forall_impl; [exact Hall |]. simpl. lia.
  - apply Max_None in Hm as ->. split; [apply list_elem_of_here |].
    constructor; [lia | constructor].
Qed.

Lemma latest_reply_time_Some s p t :
  latest_reply_time s p = Some t →
  ∃ r, r ∈ replies s p ∧ submit_date r = t.
Proof.
  intros Ht. apply Max_Some in Ht as [Hin _].
  apply list_elem_of_fmap in Hin as (r & -> & Hr). eauto.
Qed.

Lemma latest_reply_time_no_replies s p :
  num_replies s p = 0%Z → latest_reply_time s p = None.
Proof.
  unfold latest_reply_time, num_replies, Count.
  destruct (replies s p); [done | simpl; lia].
Qed.

Lemma popular_filter_spec now_gt now_lt s p :
  popular_filter now_gt now_lt s p = true ↔
  (0 < num_replies s p)%Z
  ∧ ∃ t, latest_reply_time s p = Some t
         ∧ (now_gt - timedelta 2 < t)%Z ∧ (t < now_lt)%Z.
Proof.
  unfold popular_filter, lookup_gt, lookup_lt.
  rewrite !andb_true_iff, Z.ltb_lt.
  destruct (latest_reply_time s p) as [t|].
  - rewrite !Z.ltb_lt. split.
    + intros [[Hpos Hgt] Hlt]. eauto 10.
    + intros (Hpos & t' & [= <-] & Hgt & Hlt). done.
  - split; [intros [[_ [=]] _] | intros (_ & t & [=] & _)].
Qed.

Lemma popular_candidates now_gt now_lt s p :
  p ∈ popular now_gt now_lt s →
  p ∈ Post_rows s ∧ public p = true ∧ popular_filter now_gt now_lt s p = true.
Proof.
  unfold popular, Post_public. intros Hp.
  apply subseteq_take in Hp. rewrite order_by_Permutation in Hp.
  apply list_elem_of_filter in Hp as [Hf Hp].
  apply list_elem_of_filter in Hp as [Hpub Hp].
  by repeat split; [| apply Is_true_eq_true ..].
Qed.

(** C2: [popular] includes a post only if it has at least one reply and
    its latest reply lies strictly between 48 hours before the first
    reading of the clock and the second reading (with one reading [now]
    for both: strictly inside (now - 48h, now)).  So a post without
    replies, a post whose replies are all 48 hours old or older, and a
    post whose latest reply is at or after [now] are all left out. *)
Theorem popular_recency_window (now_gt now_lt : datetime) (s : Store) (p : Post) :
  (p ∈ popular now_gt now_lt s →
     (0 < num_replies s p)%Z
     ∧ ∃ t, latest_reply_time s p = Some t
            ∧ (now_gt - 48 * 3600000000 < t)%Z ∧ (t < now_lt)%Z)
  ∧ (num_replies s p = 0%Z → p ∉ popular now_gt now_lt s)
  ∧ (Forall (λ r, (submit_date r ≤ now_gt - 48 * 3600000000)%Z) (replies s p) →
     p ∉ popular now_gt now_lt s)
  ∧ (∀ t, latest_reply_time s p = Some t → (now_lt ≤ t)%Z →
     p ∉ popular now_gt now_lt s).
Proof.
  rewrite <- timedelta_2_is_48h.
  assert (p ∈ popular now_gt now_lt s →
          (0 < num_replies s p)%Z
          ∧ ∃ t, latest_reply_time s p = Some t
                 ∧ (now_gt - timedelta 2 < t)%Z ∧ (t < now_lt)%Z) as Hin.
  { intros Hp. apply popular_candidates in Hp as (_ & _ & Hf).
    by apply popular_filter_spec. }
  split; [done |]. repeat split.
  - intros Hzero Hp. destruct (Hin Hp) as [Hpos _]. lia.
  - intros Hold Hp. destruct (Hin Hp) as (_ & t & Ht & Hgt & _).
    apply latest_reply_time_Some in Ht as (r & Hr & <-).
    rewrite Forall_forall in Hold. specialize (Hold r Hr). simpl in Hold. lia.
  - intros t Ht Hge Hp. destruct (Hin Hp) as (_ & t' & Ht' & _ & Hlt).
    rewrite Ht in Ht'. injection Ht' as <-. lia.
Qed.

(** What "not ranked after" means between two posts that passed the
    recency filter. *)
Lemma popular_not_after now_gt now_lt s p q :
  popular_filter now_gt now_lt s p = true →
  popular_filter now_gt now_lt s q = true →
  not_after (lexicographic (popular_columns s)) p q →
  (num_replies s q < num_replies s p)%Z
  ∨ (num_replies s q = num_replies s p
     ∧ ∃ tp tq, latest_reply_time s p = Some tp
                ∧ latest_reply_time s q = Some tq ∧ (tq ≤ tp)%Z).
Proof.
  intros Hp Hq. unfold not_after. simpl. unfold desc.
  apply popular_filter_spec in Hp as (_ & tp & -> & _).
  apply popular_filter_spec in Hq as (_ & tq & -> & _).
  simpl.
  destruct (Z.compare_spec (num_replies s q) (num_replies s p)) as [Heq|Hlt|Hgt].
  - destruct (Z.compare_spec tq tp); intros Hcmp; try done;
      right; (split; [done |]); exists tp, tq; repeat split; lia.
  - by left.
  - done.
Qed.

(** C3: [popular] returns at most 10 posts, ordered by
    (reply_count DESC, latest_reply_time DESC); an eligible post is left
    out only when 10 posts that rank no lower are returned.  In
    particular, with X (11 replies in the last 24 hours), Y (2 replies in
    the last 24 hours) and Z (5 replies, all 3 days old), the result is
    exactly X, Y. *)
Theorem popular_ranked_top_ten (now_gt now_lt : datetime) (s : Store) :
  (length (popular now_gt now_lt s) ≤ 10)%nat
  ∧ (∀ i j p q,
       popular now_gt now_lt s !! i = Some p →
       popular now_gt now_lt s !! j = Some q →
       (i < j)%nat →
       (num_replies s q < num_replies s p)%Z
       ∨ (num_replies s q = num_replies s p
          ∧ ∃ tp tq, latest_reply_time s p = Some tp
                     ∧ latest_reply_time s q = Some tq ∧ (tq ≤ tp)%Z))
  ∧ (∀ p,
       p ∈ Post_rows s → public p = true →
       popular_filter now_gt now_lt s p = true →
       p ∉ popular now_gt now_lt s →
       length (popular now_gt now_lt s) = 10%nat
       ∧ ∀ q, q ∈ popular now_gt now_lt s →
           (num_replies s p < num_replies s q)%Z
           ∨ (num_replies s p = num_replies s q
              ∧ ∃ tq tp, latest_reply_time s q = Some tq
                         ∧ latest_reply_time s p = Some tp ∧ (tp ≤ tq)%Z))
  ∧ (∀ x y z now,
       now_gt = now → now_lt = now →
       Post_rows s ≡ₚ [x; y; z] →
       public x = true → public y = true →
       num_replies s x = 11%Z →
       Forall (λ r, (now - timedelta 1 < submit_date r < now)%Z) (replies s x) →
       num_replies s y = 2%Z →
       Forall (λ r, (now - timedelta 1 < submit_date r < now)%Z) (replies s y) →
       num_replies s z = 5%Z →
       Forall (λ r, submit_date r = (now - timedelta 3)%Z) (replies s z) →
       popular now_gt now_lt s = [x; y]).
Proof.
  set (eligible := filter (λ p, popular_filter now_gt now_lt s p)
                          (Post_public s)).
  set (ranked := order_by (popular_columns s) eligible).
  assert (popular now_gt now_lt s = take 10 ranked) as Hpop by done.
  assert (StronglySorted (not_after (lexicographic (popular_columns s))) ranked)
    as Hsorted by apply order_by_StronglySorted, popular_columns_ranking.
  split; [| split; [| split]].
  - rewrite Hpop, length_take. lia.
  - intros i j p q Hi Hj Hij.
    pose proof (list_elem_of_lookup_2 _ _ _ Hi) as Hp.
    pose proof (list_elem_of_lookup_2 _ _ _ Hj) as Hq.
    apply popular_candidates in Hp as (_ & _ & Hp).
    apply popular_candidates in Hq as (_ & _ & Hq).
    apply (popular_not_after now_gt now_lt); [done | done |].
    rewrite Hpop in Hi, Hj.
    apply lookup_take_Some in Hi as [Hi _].
    apply lookup_take_Some in Hj as [Hj _].
    by apply (StronglySorted_lookup _ ranked i j).
  - intros p Hrow Hpub Hf Hout.
    assert (p ∈ ranked) as Hranked.
    { unfold ranked. rewrite order_by_Permutation. unfold eligible, Post_public.
      rewrite !list_elem_of_filter.
      by repeat split; [apply Is_true_eq_left .. |]. }
    rewrite <- (take_drop 10 ranked) in Hranked, Hsorted.
    rewrite <- Hpop in Hranked, Hsorted.
    apply elem_of_app in Hranked as [Hin | Hdrop]; [done |].
    split.
    + rewrite Hpop, length_take.
      assert (length (drop 10 ranked) ≠ 0)%nat as Hlen
        by (destruct (drop 10 ranked); [by apply elem_of_nil in Hdrop | done]).
      rewrite length_drop in Hlen. lia.
    + intros q Hq.
      pose proof (StronglySorted_app_1_elem_of _ _ _ _ _ Hsorted Hq Hdrop) as Hqp.
      apply popular_candidates in Hq as (_ & _ & Hq).
      by apply (popular_not_after now_gt now_lt).
  - intros x y z now -> -> Hrows Hx Hy Nx Rx Ny Ry Nz Rz.
    assert (∀ p n, num_replies s p = n → (0 < n)%Z →
              Forall (λ r, (now - timedelta 1 < submit_date r < now)%Z)
                     (replies s p) →
              popular_filter now now s p = true) as Hrecent.
    { intros p n Hn Hpos Hall. apply popular_filter_spec.
      split; [lia |].
      destruct (latest_reply_time s p) as [t|] eqn:Ht.
      - exists t. split; [done |].
        apply latest_reply_time_Some in Ht as (r & Hr & <-).
        rewrite Forall_forall in Hall. specialize (Hall r Hr). simpl in Hall.
        unfold timedelta in *. lia.
      - apply Max_None, fmap_nil_inv in Ht.
        unfold num_replies, Count in Hn. rewrite Ht in Hn. simpl in Hn. lia. }
    assert (popular_filter now now s z = false) as Hz.
    { apply not_true_is_false. intros Hf.
      apply popular_filter_spec in Hf as (_ & t & Ht & Hgt & _).
      apply latest_reply_time_Some in Ht as (r & Hr & <-).
      rewrite Forall_forall in Rz. rewrite (Rz r Hr) in Hgt.
      unfold timedelta in Hgt. lia. }
    assert (eligible ≡ₚ [x; y]) as Helig.
    { unfold eligible, Post_public. rewrite Hrows.
      rewrite !filter_cons, filter_nil.
      rewrite Hx, Hy. simpl.
      destruct (decide (public z)) as [Pz|Pz];
        rewrite !filter_cons, filter_nil;
        rewrite (Hrecent x 11%Z), (Hrecent y 2%Z), ?Hz by (done || lia);
        done. }
    rewrite Hpop. unfold ranked.
    rewrite (order_by_two _ _ x y (popular_columns_ranking s) Helig); [done |].
    simpl. unfold desc. by rewrite Nx, Ny.
Qed.

(** * The handlers *)

Lemma resolve_DoesNotExist s name :
  (∀ t, t ∈ Tag_rows s → tag_name t ≠ name) → resolve s name = None.
Proof.
  intros Hnone. unfold resolve, Tag_objects_get.
  destruct (filter (λ t, tag_name t = name) (Tag_rows s)) as [|t l] eqn:Hf;
    [done |].
  assert (t ∈ filter (λ t, tag_name t = name) (Tag_rows s)) as Ht
    by (rewrite Hf; apply list_elem_of_here).
  apply list_elem_of_filter in Ht as [Hname Ht]. by destruct (Hnone t Ht).
Qed.

Lemma resolve_Some s name t :
  resolve s name = Some t → t ∈ Tag_rows s ∧ tag_name t = name.
Proof.
  unfold resolve, Tag_objects_get.
  destruct (filter (λ t, tag_name t = name) (Tag_rows s)) as [|t' [|? ?]] eqn:Hf;
    intros [= <-].
  assert (t' ∈ filter (λ t, tag_name t = name) (Tag_rows s)) as Ht
    by (rewrite Hf; apply list_elem_of_here).
  apply list_elem_of_filter in Ht as [Hname Ht]. done.
Qed.

Lemma lookup_or_raise s name :
  try_except (Tag_objects_get name) (λ _, raise UnknownTag) s =
  match resolve s name with
  | Some t => (Return t, s)
  | None => (Raise UnknownTag, s)
  end.
Proof.
  unfold try_except, resolve, Tag_objects_get, raise.
  by destruct (filter (λ t, tag_name t = name) (Tag_rows s)) as [|t [|? ?]].
Qed.

(** The loop looks the names up in order, stops at the first that does
    not resolve, and never touches the store. *)
Lemma for_name_in_spec names acc s :
  for_name_in names acc s =
  match mapM (resolve s) names with
  | Some ts => (Return (acc ++ ts), s)
  | None => (Raise UnknownTag, s)
  end.
Proof.
  revert acc. induction names as [|name names IH]; intros acc; simpl.
  - unfold ret. by rewrite app_nil_r.
  - unfold bind. rewrite lookup_or_raise.
    destruct (resolve s name) as [t|]; simpl; [| done].
    rewrite IH. destruct (mapM (resolve s) names); simpl; [| done].
    by rewrite <- app_assoc.
Qed.

Lemma is_valid_store partial d s :
  ∃ r, is_valid partial d s = (r, s).
Proof. unfold is_valid. destruct (run_validation partial d); eauto. Qed.

Lemma get_object_store req pk s :
  ∃ r, get_object req pk s = (r, s).
Proof.
  unfold get_object.
  destruct (head _);
    [destruct (has_object_permission _ _) | destruct (decide _)]; eauto.
Qed.

Lemma get_object_Return req pk s p s' :
  get_object req pk s = (Return p, s') →
  s' = s ∧ p ∈ Post_rows s ∧ post_id p = pk.
Proof.
  unfold get_object.
  destruct (head _) as [p'|] eqn:Hhead; [| by destruct (decide _)].
  destruct (has_object_permission _ _); intros [= <- <-].
  apply head_Some_elem_of in Hhead.
  apply list_elem_of_filter in Hhead as [Hpk Hin].
  unfold filter_queryset, queryset in Hin.
  rewrite order_by_Permutation in Hin.
  repeat split; [| done].
  by apply tags_filter_subseteq in Hin.
Qed.

Lemma get_object_not_found req pk s :
  (∀ p, p ∈ Post_rows s → post_id p ≠ pk) →
  head (filter (λ p, post_id p = pk) (filter_queryset req s)) = None.
Proof.
  intros Hnone.
  destruct (head _) as [p|] eqn:Hhead; [exfalso | done].
  apply head_Some_elem_of in Hhead.
  apply list_elem_of_filter in Hhead as [Hpk Hin].
  unfold filter_queryset, queryset in Hin.
  rewrite order_by_Permutation in Hin.
  apply (Hnone p); [| done].
  by apply tags_filter_subseteq in Hin.
Qed.

Lemma get_object_Http404 req pk s :
  in_key_range pk →
  (∀ p, p ∈ Post_rows s → post_id p ≠ pk) →
  get_object req pk s = (Raise Http404, s).
Proof.
  intros Hrange Hnone. unfold get_object.
  rewrite (get_object_not_found _ _ _ Hnone). by rewrite decide_True.
Qed.

Lemma get_object_OverflowError req pk s :
  ¬ in_key_range pk →
  (∀ p, p ∈ Post_rows s → post_id p ≠ pk) →
  get_object req pk s = (Raise OverflowError, s).
Proof.
  intros Hrange Hnone. unfold get_object.
  rewrite (get_object_not_found _ _ _ Hnone). by rewrite decide_False.
Qed.

Lemma truthy_Some_length names :
  truthy (Some names) = true ↔ (0 < length names)%nat.
Proof. destruct names; simpl; split; (done || lia). Qed.

(** C4: in [perform_create], an absent or empty tags field raises
    EmptyTagSelection; more than 3 names raise TooManyTags; between 1 and
    3 names of which one does not resolve (in particular: no tag row
    carries it) raise UnknownTag; otherwise one post is inserted, with
    exactly the resolved tags as its tag set and the requesting user as
    author.  [create] runs [perform_create] once the serializer accepted
    the payload. *)
Theorem create_tag_rules (now : datetime) (req : Request)
    (vd : ValidatedData) (s : Store) :
  (tags_data (data req) = None ∨ tags_data (data req) = Some [] →
     perform_create now req vd s = (Raise EmptyTagSelection, s))
  ∧ (∀ names, tags_data (data req) = Some names → (3 < length names)%nat →
     perform_create now req vd s = (Raise TooManyTags, s))
  ∧ (∀ names, tags_data (data req) = Some names →
     (0 < length names ≤ 3)%nat →
     (Exists (λ name, resolve s name = None) names
      ∨ Exists (λ name, ∀ t, t ∈ Tag_rows s → tag_name t ≠ name) names) →
     perform_create now req vd s = (Raise UnknownTag, s))
  ∧ (∀ names ts, tags_data (data req) = Some names →
     (0 < length names ≤ 3)%nat →
     Forall2 (λ name t, resolve s name = Some t) names ts →
     ∃ p, perform_create now req vd s =
            (Return p, {| Post_rows := Post_rows s ++ [p];
                          Tag_rows := Tag_rows s;
                          Reply_rows := Reply_rows s |})
          ∧ author p = user req
          ∧ created_time p = now
          ∧ tags p = list_to_set (tag_id <$> ts)
          ∧ ∀ i, i ∈ tags p ↔
                 ∃ name t, name ∈ names ∧ resolve s name = Some t
                           ∧ tag_id t = i)
  ∧ (run_validation false (data req) = inr vd →
     create now req s = perform_create now req vd s).
Proof.
  unfold perform_create. repeat split.
  - by intros [-> | ->].
  - intros names -> Hlen. simpl.
    destruct names as [|name names]; simpl in *; [lia |].
    destruct (3 <? S (length names))%nat eqn:Hcmp; [done |].
    apply Nat.ltb_ge in Hcmp. lia.
  - intros names -> [Hpos Hle] Hex.
    rewrite (proj2 (truthy_Some_length names) Hpos). simpl.
    destruct (3 <? length names)%nat eqn:Hcmp;
      [apply Nat.ltb_lt in Hcmp; lia |].
    unfold bind. rewrite for_name_in_spec.
    assert (Exists (λ name, resolve s name = None) names) as Hnone.
    { destruct Hex as [Hex | Hex]; [done |].
      eapply Exists_impl; [exact Hex |]. apply resolve_DoesNotExist. }
    by rewrite (mapM_None_2 _ _ Hnone).
  - intros names ts -> [Hpos Hle] Hall.
    rewrite (proj2 (truthy_Some_length names) Hpos). simpl.
    destruct (3 <? length names)%nat eqn:Hcmp;
      [apply Nat.ltb_lt in Hcmp; lia |].
    unfold bind. rewrite for_name_in_spec.
    rewrite (mapM_Some_2 _ _ _ Hall). simpl.
    eexists. split; [reflexivity |]. simpl. repeat split.
    + rewrite elem_of_list_to_set, list_elem_of_fmap.
      intros (t & -> & Ht).
      apply list_elem_of_lookup in Ht as [k Hk].
      destruct (Forall2_lookup_r _ _ _ _ _ Hall Hk) as (name & Hname & Hres).
      exists name, t. repeat split; [| done].
      by eapply list_elem_of_lookup_2.
    + intros (name & t & Hname & Hres & <-).
      rewrite elem_of_list_to_set, list_elem_of_fmap.
      exists t. split; [done |].
      apply list_elem_of_lookup in Hname as [k Hk].
      destruct (Forall2_lookup_l _ _ _ _ _ Hall Hk) as (t' & Ht' & Hres').
      rewrite Hres in Hres'. injection Hres' as <-.
      by eapply list_elem_of_lookup_2.
  - intros Hvalid. unfold create, bind, is_valid. by rewrite Hvalid.
Qed.

Lemma NoDup_fmap_elem_inj {A B} (f : A → B) (l : list A) x y :
  NoDup (f <$> l) → x ∈ l → y ∈ l → f x = f y → x = y.
Proof.
  induction l as [|a l IH]; simpl; intros Hnd Hx Hy Hf;
    [by apply elem_of_nil in Hx |].
  apply NoDup_cons in Hnd as [Hfresh Hnd].
  apply elem_of_cons in Hx as [-> | Hx]; apply elem_of_cons in Hy as [-> | Hy].
  - done.
  - destruct Hfresh. rewrite Hf. by apply list_elem_of_fmap_2.
  - destruct Hfresh. rewrite <- Hf. by apply list_elem_of_fmap_2.
  - by apply IH.
Qed.

(** Saving without the [tags] keyword leaves the tag set of every row as
    it was, and never changes a primary key. *)
Lemma save_instance_keeps_tags instance vd s r s' :
  save_instance instance vd None s = (r, s') →
  NoDup (post_id <$> Post_rows s) →
  instance ∈ Post_rows s →
  tags <$> Post_rows s' = tags <$> Post_rows s
  ∧ post_id <$> Post_rows s' = post_id <$> Post_rows s.
Proof.
  unfold save_instance. intros [= <- <-] Hnd Hin. simpl.
  rewrite <- !list_fmap_compose.
  split; apply list_fmap_ext; intros i x Hx; simpl;
    destruct (decide (post_id x = post_id instance)) as [Heq|]; simpl;
    try done.
  apply list_elem_of_lookup_2 in Hx.
  by rewrite (NoDup_fmap_elem_inj post_id _ x instance Hnd Hx Hin Heq).
Qed.

Lemma perform_update_spec req instance vd s :
  perform_update req instance vd s =
  if truthy (tags_data (data req)) then
    match mapM (resolve s) (names_of (tags_data (data req))) with
    | Some ts => save_instance instance vd (Some ts) s
    | None => (Raise UnknownTag, s)
    end
  else save_instance instance vd None s.
Proof.
  unfold perform_update. destruct (truthy _); [| done].
  unfold bind. rewrite for_name_in_spec.
  by destruct (mapM _ _).
Qed.

Lemma count_rules_dec partial td :
  count_rules_violated partial td
  ∨ ((partial = true ∧ td = None) ∨ (truthy td = true ∧ (len td ≤ 3)%nat)).
Proof.
  unfold count_rules_violated.
  destruct partial, td as [[|name names]|]; simpl;
    try (right; left; done);
    try (left; split; [intros [? ?]; done | left; done]).
  all: destruct (le_lt_dec (S (length names)) 3);
    [right; right; done | left; split; [intros [? ?]; done | right; done]].
Qed.

(** The first statement of [update]: the count rules, before anything
    else is looked at. *)
Lemma update_count_violation req pk partial s :
  count_rules_violated partial (tags_data (data req)) →
  update req pk partial s =
  (Raise (if truthy (tags_data (data req)) then TooManyTags
          else EmptyTagSelection), s).
Proof.
  intros [Hskip Hbad]. unfold update, bind.
  destruct (partial && bool_decide (tags_data (data req) = None)) eqn:Hp.
  { apply andb_true_iff in Hp as [-> Hnone%bool_decide_eq_true]. by destruct Hskip. }
  destruct (truthy (tags_data (data req))) eqn:Ht; simpl; [| done].
  destruct Hbad as [? | Hlen]; [done |].
  apply Nat.ltb_lt in Hlen. by rewrite Hlen.
Qed.

Lemma update_count_ok req pk partial s :
  (partial = true ∧ tags_data (data req) = None)
  ∨ (truthy (tags_data (data req)) = true ∧ (len (tags_data (data req)) ≤ 3)%nat) →
  update req pk partial s =
  (let! instance := get_object req pk in
   let! serializer := is_valid partial (data req) in
   perform_update req instance serializer) s.
Proof.
  intros Hok. unfold update. unfold bind at 1.
  destruct Hok as [[-> ->] | [Ht Hlen]]; [done |].
  assert (tags_data (data req) ≠ None) as Hsome by (by destruct (tags_data _)).
  rewrite (bool_decide_eq_false_2 _ Hsome), andb_false_r, Ht. simpl.
  apply Nat.ltb_ge in Hlen. by rewrite Hlen.
Qed.

Lemma perform_create_Raise now req vd s e s' :
  perform_create now req vd s = (Raise e, s') → s' = s.
Proof.
  unfold perform_create.
  destruct (truthy _); simpl; [| by intros [= _ <-]].
  destruct (3 <? _)%nat; [by intros [= _ <-] |].
  unfold bind. rewrite for_name_in_spec.
  destruct (mapM _ _); [done | by intros [= _ <-]].
Qed.

Lemma perform_update_Raise req instance vd s e s' :
  perform_update req instance vd s = (Raise e, s') → s' = s.
Proof.
  rewrite perform_update_spec.
  destruct (truthy _); [| done].
  destruct (mapM _ _); [done | by intros [= _ <-]].
Qed.

Lemma create_Raise now req s e s' :
  create now req s = (Raise e, s') → s' = s.
Proof.
  unfold create, bind.
  destruct (is_valid_store false (data req) s) as [[vd|e'] ->].
  - apply perform_create_Raise.
  - by intros [= _ <-].
Qed.

Lemma update_Raise req pk partial s e s' :
  update req pk partial s = (Raise e, s') → s' = s.
Proof.
  destruct (count_rules_dec partial (tags_data (data req))) as [Hbad | Hok].
  - rewrite (update_count_violation _ _ _ _ Hbad). by intros [= _ <-].
  - rewrite (update_count_ok _ _ _ _ Hok). unfold bind.
    destruct (get_object_store req pk s) as [[instance|e1] ->];
      [| by intros [= _ <-]].
    destruct (is_valid_store partial (data req) s) as [[vd|e2] ->];
      [| by intros [= _ <-]].
    apply perform_update_Raise.
Qed.

(** C5: a partial update without the tags field skips the tag
    validation: the handler is the lookup, the serializer validation and
    a save without the [tags] keyword, the saved post keeps the tag set
    of the instance, and (primary keys being unique) the tag set of every
    post is as before.  A partial update with an empty tags field raises
    EmptyTagSelection, one with more than 3 names TooManyTags. *)
Theorem partial_update_tags (req : Request) (pk : Z) (s : Store) :
  (tags_data (data req) = None →
     update req pk true s =
       (let! instance := get_object req pk in
        let! serializer := is_valid true (data req) in
        save_instance instance serializer None) s
     ∧ (∀ instance vd,
          get_object req pk s = (Return instance, s) →
          run_validation true (data req) = inr vd →
          ∃ p s', update req pk true s = (Return p, s')
                  ∧ post_id p = pk ∧ tags p = tags instance)
     ∧ (∀ r s',
          update req pk true s = (r, s') →
          NoDup (post_id <$> Post_rows s) →
          tags <$> Post_rows s' = tags <$> Post_rows s
          ∧ post_id <$> Post_rows s' = post_id <$> Post_rows s))
  ∧ (tags_data (data req) = Some [] →
     update req pk true s = (Raise EmptyTagSelection, s))
  ∧ (∀ names, tags_data (data req) = Some names → (3 < length names)%nat →
     update req pk true s = (Raise TooManyTags, s)).
Proof.
  split; [| split].
  - intros Hnone.
    assert (update req pk true s =
            (let! instance := get_object req pk in
             let! serializer := is_valid true (data req) in
             save_instance instance serializer None) s) as Hupd.
    { rewrite update_count_ok by (by left). unfold bind.
      destruct (get_object req pk s) as [[instance|e1] s1]; [| done].
      destruct (is_valid true (data req) s1) as [[vd|e2] s2]; [| done].
      rewrite perform_update_spec. by rewrite Hnone. }
    split; [done |]. split.
    + intros instance vd Hget Hvalid. rewrite Hupd. unfold bind.
      rewrite Hget. unfold is_valid. rewrite Hvalid. simpl.
      apply get_object_Return in Hget as (_ & _ & Hpk).
      eexists _, _. split; [reflexivity |]. done.
    + intros r s' Hrun Hnd. rewrite Hupd in Hrun. unfold bind in Hrun.
      destruct (get_object req pk s) as [[instance|e1] s1] eqn:Hget.
      * apply get_object_Return in Hget as (-> & Hin & _).
        destruct (is_valid_store true (data req) s) as [[vd|e2] Hv];
          rewrite Hv in Hrun.
        -- by apply (save_instance_keeps_tags instance vd s r s').
        -- by injection Hrun as _ <-.
      * destruct (get_object_store req pk s) as [r1 Hs].
        rewrite Hs in Hget. injection Hget as _ <-. by injection Hrun as _ <-.
  - intros Hempty.
    rewrite update_count_violation; rewrite Hempty; [done |].
    split; [by intros [_ ?] | by left].
  - intros names Hnames Hlen.
    rewrite update_count_violation; rewrite Hnames.
    + destruct names; [simpl in Hlen; lia | done].
    + split; [by intros [_ ?] | by right].
Qed.

(** C6: when a tag rule fails, [create] and [update] raise and leave the
    store exactly as it was; more generally a handler that raises has
    written nothing. *)
Theorem tag_failure_writes_nothing (now : datetime) (req : Request)
    (pk : Z) (partial : bool) (s : Store) :
  (tag_rules_violated false s (tags_data (data req)) →
     ∃ e, create now req s = (Raise e, s))
  ∧ (tag_rules_violated partial s (tags_data (data req)) →
     ∃ e, update req pk partial s = (Raise e, s))
  ∧ (∀ e s', create now req s = (Raise e, s') → s' = s)
  ∧ (∀ e s', update req pk partial s = (Raise e, s') → s' = s).
Proof.
  split; [| split; [| split]].
  - intros Hbad. unfold create, bind.
    destruct (is_valid_store false (data req) s) as [[vd|e'] ->]; [| eauto].
    unfold perform_create.
    destruct (truthy _) eqn:Ht; simpl; [| eauto].
    destruct (3 <? _)%nat eqn:Hlen; [eauto |].
    unfold bind. rewrite for_name_in_spec.
    destruct Hbad as [[_ [Hf | Hl]] | Hex].
    + congruence.
    + apply Nat.ltb_lt in Hl. congruence.
    + rewrite (mapM_None_2 _ _ Hex). eauto.
  - intros Hbad.
    destruct (count_rules_dec partial (tags_data (data req))) as [Hcount | Hok].
    { rewrite (update_count_violation _ _ _ _ Hcount). eauto. }
    destruct Hbad as [Hcount | Hex].
    { rewrite (update_count_violation _ _ _ _ Hcount). eauto. }
    rewrite (update_count_ok _ _ _ _ Hok). unfold bind.
    destruct (get_object_store req pk s) as [[instance|e1] ->]; [| eauto].
    destruct (is_valid_store partial (data req) s) as [[vd|e2] ->]; [| eauto].
    rewrite perform_update_spec, (mapM_None_2 _ _ Hex).
    destruct (truthy _) eqn:Ht; [eauto |].
    destruct (tags_data (data req)) as [[|? ?]|]; simpl in *;
      first [discriminate Ht | by apply Exists_nil in Hex].
  - apply create_Raise.
  - apply update_Raise.
Qed.

(** C7, as the code has it: when a supplied name does not resolve,
    [perform_create] and [perform_update] raise, without having written
    anything, the one validation error on the tags field whose message
    says that the tag does not exist; the error is the same whichever
    name failed and does not carry it. *)
Theorem unknown_tag_error (now : datetime) (req : Request) (instance : Post)
    (vd : ValidatedData) (s : Store) (names : list string) :
  tags_data (data req) = Some names →
  Exists (λ name, resolve s name = None) names →
  ((length names ≤ 3)%nat →
   perform_create now req vd s =
   (Raise (ValidationError [("标签", "标签不存在")]), s))
  ∧ perform_update req instance vd s =
    (Raise (ValidationError [("标签", "标签不存在")]), s).
Proof.
  intros Hnames Hex.
  assert (truthy (Some names) = true) as Ht
    by (destruct names; [by apply Exists_nil in Hex | done]).
  split.
  - intros Hlen. unfold perform_create. rewrite Hnames, Ht. simpl.
    apply Nat.ltb_ge in Hlen. rewrite Hlen.
    unfold bind. rewrite for_name_in_spec. by rewrite (mapM_None_2 _ _ Hex).
  - rewrite perform_update_spec, Hnames, Ht. simpl.
    by rewrite (mapM_None_2 _ _ Hex).
Qed.

(** C10: [update] checks the tag count before it looks the post up: a
    selection that is present but empty, or longer than 3, raises its
    tag error whatever the store holds, also when no post has the given
    id; [Http404] comes out only when the count rules pass, and it does
    come out then if no post has the id and the id is a key the table
    can hold (beyond that range the backend's [OverflowError] comes out
    instead). *)
Theorem update_count_before_lookup (req : Request) (pk : Z) (partial : bool)
    (s : Store) :
  (¬ (partial = true ∧ tags_data (data req) = None) →
   truthy (tags_data (data req)) = false →
   update req pk partial s = (Raise EmptyTagSelection, s))
  ∧ (∀ names, tags_data (data req) = Some names → (3 < length names)%nat →
     update req pk partial s = (Raise TooManyTags, s))
  ∧ (∀ s', update req pk partial s = (Raise Http404, s') →
     (partial = true ∧ tags_data (data req) = None)
     ∨ ∃ names, tags_data (data req) = Some names
                ∧ (0 < length names ≤ 3)%nat)
  ∧ ((partial = true ∧ tags_data (data req) = None)
     ∨ (∃ names, tags_data (data req) = Some names
                 ∧ (0 < length names ≤ 3)%nat) →
     (∀ p, p ∈ Post_rows s → post_id p ≠ pk) →
     (in_key_range pk → update req pk partial s = (Raise Http404, s))
     ∧ (¬ in_key_range pk →
        update req pk partial s = (Raise OverflowError, s))).
Proof.
  split; [| split; [| split]].
  - intros Hskip Hf. rewrite update_count_violation; [by rewrite Hf |].
    split; [done | by left].
  - intros names Hnames Hlen. rewrite update_count_violation; rewrite Hnames.
    + destruct names; [simpl in Hlen; lia | done].
    + split; [by intros [_ ?] | by right].
  - intros s' Hrun.
    destruct (count_rules_dec partial (tags_data (data req))) as [Hbad | Hok].
    + rewrite (update_count_violation _ _ _ _ Hbad) in Hrun.
      by destruct (truthy _).
    + destruct Hok as [? | [Ht Hlen]]; [by left | right].
      destruct (tags_data (data req)) as [names|]; [| done].
      exists names. split; [done |].
      apply truthy_Some_length in Ht. simpl in Hlen. lia.
  - intros Hok Hnone.
    assert ((partial = true ∧ tags_data (data req) = None)
            ∨ (truthy (tags_data (data req)) = true
               ∧ (len (tags_data (data req)) ≤ 3)%nat)) as Hok'.
    { destruct Hok as [? | (names & -> & Hpos & Hle)]; [by left | right].
      by split; [apply truthy_Some_length |]. }
    rewrite (update_count_ok _ _ _ _ Hok'). unfold bind. split.
    + intros Hrange. by rewrite (get_object_Http404 _ _ _ Hrange Hnone).
    + intros Hrange. by rewrite (get_object_OverflowError _ _ _ Hrange Hnone).
Qed.

(** * Further properties of the aggregates and the tag lookup *)

(** X1: [Max('replies__submit_date')] is the date of a reply of the post
    that no reply of the post exceeds, and it is NULL exactly when
    [Count('replies')] is 0. *)
Theorem latest_reply_time_spec (s : Store) (p : Post) :
  (∀ t, latest_reply_time s p = Some t ↔
        (∃ r, r ∈ Reply_rows s ∧ reply_post r = post_id p ∧ submit_date r = t)
        ∧ ∀ r, r ∈ Reply_rows s → reply_post r = post_id p →
               (submit_date r ≤ t)%Z)
  ∧ (latest_reply_time s p = None ↔ num_replies s p = 0%Z).
Proof using Type.
  assert (∀ r, r ∈ replies s p ↔ r ∈ Reply_rows s ∧ reply_post r = post_id p)
    as Hrep.
  { intros r. unfold replies. rewrite list_elem_of_filter.
    split; intros [Ha Hb]; by split. }
  split.
  - intros t. split.
    + intros Ht. destruct (Max_Some _ _ Ht) as [Hin Hall]. split.
      * apply list_elem_of_fmap in Hin as (r & -> & Hr).
        apply Hrep in Hr as [Hr Hp]. by exists r.
      * intros r Hr Hp. rewrite Forall_forall in Hall. apply Hall.
        apply list_elem_of_fmap_2. apply Hrep. done.
    + intros [(r & Hr & Hp & <-) Hmax].
      destruct (latest_reply_time s p) as [t'|] eqn:Ht'.
      * destruct (Max_Some _ _ Ht') as [Hin Hall].
        apply list_elem_of_fmap in Hin as (r' & -> & Hr').
        apply Hrep in Hr' as [Hr' Hp'].
        rewrite Forall_forall in Hall.
        assert (submit_date r ≤ submit_date r')%Z as Hle.
        { apply Hall, list_elem_of_fmap_2, Hrep. done. }
        specialize (Hmax r' Hr' Hp'). f_equal. lia.
      * apply Max_None, fmap_nil_inv in Ht'.
        assert (r ∈ replies s p) as Hin by (by apply Hrep).
        rewrite Ht' in Hin. by apply elem_of_nil in Hin.
  - unfold latest_reply_time, num_replies, Count. split.
    + intros Hn. apply Max_None, fmap_nil_inv in Hn. by rewrite Hn.
    + intros Hz. destruct (replies s p); [done | simpl in Hz; lia].
Qed.

(** X2: in [popular] the condition [num_replies__gt=0] adds nothing to
    the two conditions on [latest_reply_time]: the result is the same
    without it. *)
Theorem popular_count_condition_redundant (now_gt now_lt : datetime) (s : Store) :
  popular now_gt now_lt s =
  take 10 (order_by (popular_columns s)
             (filter (λ p, lookup_gt (latest_reply_time s p)
                                     (now_gt - timedelta 2)%Z
                           && lookup_lt (latest_reply_time s p) now_lt)
                     (Post_public s))).
Proof.
  unfold popular. do 2 f_equal.
  apply list_filter_iff. intros p. unfold popular_filter.
  destruct (latest_reply_time s p) as [t|] eqn:Ht.
  - assert (0 < num_replies s p)%Z as Hpos.
    { destruct (Z.eq_dec (num_replies s p) 0%Z) as [Hz|Hnz].
      - apply latest_reply_time_no_replies in Hz. congruence.
      - unfold num_replies, Count in *. lia. }
    apply Z.ltb_lt in Hpos. by rewrite Hpos.
  - simpl. by rewrite andb_false_r.
Qed.

(** X3: when the loop over the names completes, it has read, not
    written: the store is as before, and the tags it appended are stored
    tags that carry exactly the supplied names, in the order supplied. *)
Theorem for_name_in_resolved (names : list string) (acc ts : list Tag)
    (s s' : Store) :
  for_name_in names acc s = (Return ts, s') →
  s' = s
  ∧ ∃ found, ts = acc ++ found
             ∧ tag_name <$> found = names
             ∧ Forall (λ t, t ∈ Tag_rows s) found.
Proof.
  rewrite for_name_in_spec.
  destruct (mapM (resolve s) names) as [found|] eqn:Hm; [| done].
  intros [= <- <-]. split; [done |]. exists found. split; [done |].
  apply mapM_Some_1 in Hm. clear acc.
  induction Hm as [|name t names found Ht _ [IHn IHf]]; [done |].
  apply resolve_Some in Ht as [Hin <-]. split.
  - rewrite fmap_cons. by f_equal.
  - by constructor.
Qed.

(** X4: [except Exception] also catches [MultipleObjectsReturned]: a
    name carried by more than one tag row is reported like a name no tag
    carries, by [perform_create] and by [perform_update]. *)
Theorem duplicate_tag_name_is_unknown (now : datetime) (req : Request)
    (instance : Post) (vd : ValidatedData) (s : Store)
    (names : list string) (name : string) :
  tags_data (data req) = Some names →
  name ∈ names →
  (1 < length (filter (λ t, tag_name t = name) (Tag_rows s)))%nat →
  Tag_objects_get name s = (Raise MultipleObjectsReturned, s)
  ∧ ((length names ≤ 3)%nat →
     perform_create now req vd s = (Raise UnknownTag, s))
  ∧ perform_update req instance vd s = (Raise UnknownTag, s).
Proof.
  intros Hnames Hin Hdup.
  assert (Tag_objects_get name s = (Raise MultipleObjectsReturned, s)) as Hget.
  { unfold Tag_objects_get.
    destruct (filter _ (Tag_rows s)) as [|t1 [|t2 rest]];
      simpl in Hdup; (lia || done). }
  assert (resolve s name = None) as Hres by (unfold resolve; by rewrite Hget).
  assert (mapM (resolve s) names = None) as Hm.
  { apply mapM_None_2, Exists_exists. eauto. }
  assert (truthy (Some names) = true) as Ht
    by (destruct names; [by apply elem_of_nil in Hin | done]).
  split; [done |]. split.
  - intros Hlen. unfold perform_create. rewrite Hnames, Ht. simpl.
    apply Nat.ltb_ge in Hlen. rewrite Hlen.
    unfold bind. by rewrite for_name_in_spec, Hm.
  - rewrite perform_update_spec, Hnames, Ht. simpl. by rewrite Hm.
Qed.

(** * Further properties of [create] *)

Lemma create_Return now req s p s' :
  create now req s = (Return p, s') →
  ∃ vd, run_validation false (data req) = inr vd
        ∧ perform_create now req vd s = (Return p, s').
Proof.
  unfold create, bind, is_valid.
  destruct (run_validation false (data req)) as [errors|vd]; [done |].
  simpl. eauto.
Qed.

Lemma perform_create_Return now req vd s p s' :
  perform_create now req vd s = (Return p, s') →
  ∃ names ts, tags_data (data req) = Some names
              ∧ (0 < length names ≤ 3)%nat
              ∧ mapM (resolve s) names = Some ts
              ∧ save_new now vd (user req) ts s = (Return p, s').
Proof.
  unfold perform_create.
  destruct (tags_data (data req)) as [names|]; [| done].
  destruct (truthy (Some names)) eqn:Ht; [| done]. simpl.
  destruct (3 <? length names)%nat eqn:Hlen; [done |].
  unfold bind. rewrite for_name_in_spec.
  destruct (mapM (resolve s) names) as [ts|] eqn:Hm; [| done].
  intros Hsave. exists names, ts. repeat split; try done.
  - by apply truthy_Some_length.
  - by apply Nat.ltb_ge.
Qed.

Lemma size_list_to_set_bounds (l : list Z) :
  l ≠ [] →
  (1 ≤ size (list_to_set l : gset Z) ≤ length l)%nat.
Proof.
  intros Hne. split.
  - destruct l as [|x l]; [done |].
    rewrite <- (size_singleton (C:=gset Z) x).
    apply subseteq_size. rewrite list_to_set_cons. apply union_subseteq_l.
  - clear Hne. induction l as [|x l IH].
    + by rewrite list_to_set_nil, size_empty.
    + rewrite list_to_set_cons, size_union_alt, size_singleton.
      assert (size (list_to_set l ∖ {[x]} : gset Z) ≤ size (list_to_set l : gset Z))%nat
        by (apply subseteq_size, subseteq_difference_l; done).
      simpl. lia.
Qed.

Lemma next_pk_fresh s : next_pk s ∉ post_id <$> Post_rows s.
Proof.
  unfold next_pk. intros Hin.
  assert (∀ (l : list Z) x, x ∈ l → (x ≤ foldr Z.max 0 l)%Z) as Hmax.
  { induction l as [|y l IH]; intros x Hx; [by apply elem_of_nil in Hx |].
    apply elem_of_cons in Hx as [-> | Hx]; simpl; [lia |].
    specialize (IH x Hx). lia. }
  specialize (Hmax _ _ Hin). lia.
Qed.

(** X5: [create] returns a post exactly when the serializer accepts the
    payload, between 1 and 3 tag names are supplied and each of them
    resolves; when the serializer rejects the payload, its errors are
    raised, whatever the tags field holds. *)
Theorem create_succeeds_iff (now : datetime) (req : Request) (s : Store) :
  ((∃ p s', create now req s = (Return p, s')) ↔
   ∃ vd names, run_validation false (data req) = inr vd
               ∧ tags_data (data req) = Some names
               ∧ (0 < length names ≤ 3)%nat
               ∧ Forall (λ name, is_Some (resolve s name)) names)
  ∧ (∀ errors, run_validation false (data req) = inl errors →
     create now req s = (Raise (ValidationError errors), s)).
Proof.
  split; [split |].
  - intros (p & s' & Hrun).
    apply create_Return in Hrun as (vd & Hvd & Hrun).
    apply perform_create_Return in Hrun as (names & ts & Hn & Hlen & Hm & _).
    exists vd, names. repeat split; try done; try lia.
    apply (mapM_is_Some_1 (resolve s)). by rewrite Hm.
  - intros (vd & names & Hvd & Hn & [Hpos Hle] & Hall).
    apply (mapM_is_Some_2 (resolve s)) in Hall as [ts Hm].
    unfold create, bind, is_valid. rewrite Hvd. simpl.
    unfold perform_create. rewrite Hn.
    rewrite (proj2 (truthy_Some_length names) Hpos). simpl.
    apply Nat.ltb_ge in Hle. rewrite Hle.
    unfold bind. rewrite for_name_in_spec, Hm. unfold save_new. eauto.
  - intros errors Hvd. unfold create, bind, is_valid. by rewrite Hvd.
Qed.

(** X6: what a successful [create] leaves behind: the returned post is
    appended to the posts, the other rows and tables are untouched; the
    post is owned by the requesting user, has between 1 and 3 tags, each
    of them a stored tag whose name was supplied, and a primary key no
    earlier post has. *)
Theorem create_result (now : datetime) (req : Request) (s s' : Store) (p : Post) :
  create now req s = (Return p, s') →
  Post_rows s' = Post_rows s ++ [p]
  ∧ Tag_rows s' = Tag_rows s
  ∧ Reply_rows s' = Reply_rows s
  ∧ author p = user req
  ∧ created_time p = now
  ∧ (1 ≤ size (tags p) ≤ 3)%nat
  ∧ (∀ i, i ∈ tags p →
       ∃ t, t ∈ Tag_rows s ∧ tag_id t = i
            ∧ tag_name t ∈ names_of (tags_data (data req)))
  ∧ post_id p ∉ post_id <$> Post_rows s.
Proof.
  intros Hrun.
  apply create_Return in Hrun as (vd & _ & Hrun).
  apply perform_create_Return in Hrun as (names & ts & Hn & Hlen & Hm & Hsave).
  unfold save_new in Hsave. injection Hsave as <- <-. simpl.
  apply mapM_Some_1 in Hm.
  pose proof (Forall2_length _ _ _ Hm) as Hlen'.
  repeat split; try done.
  - apply size_list_to_set_bounds.
    destruct ts; [simpl in Hlen'; lia | done].
  - etransitivity; [apply size_list_to_set_bounds |].
    + destruct ts; [simpl in Hlen'; lia | done].
    + rewrite length_fmap. lia.
  - intros i Hi. rewrite elem_of_list_to_set, list_elem_of_fmap in Hi.
    destruct Hi as (t & -> & Ht).
    apply list_elem_of_lookup in Ht as [k Hk].
    destruct (Forall2_lookup_r _ _ _ _ _ Hm Hk) as (name & Hname & Hres).
    apply resolve_Some in Hres as [Hin Htn].
    exists t. repeat split; try done.
    rewrite Hn, Htn. simpl. by eapply list_elem_of_lookup_2.
  - apply next_pk_fresh.
Qed.

(** * Further properties of [update] *)

(** The ways a run of [update] can end: it raised and wrote nothing, or
    it found the instance, validated the payload and saved, without the
    [tags] keyword (partial, no tags field) or with the resolved tags. *)
Lemma update_inv req pk partial s r s' :
  update req pk partial s = (r, s') →
  (∃ e, r = Raise e ∧ s' = s)
  ∨ ∃ instance vd,
      get_object req pk s = (Return instance, s)
      ∧ run_validation partial (data req) = inr vd
      ∧ ((partial = true ∧ tags_data (data req) = None
          ∧ save_instance instance vd None s = (r, s'))
         ∨ ∃ names ts,
             tags_data (data req) = Some names
             ∧ (0 < length names ≤ 3)%nat
             ∧ mapM (resolve s) names = Some ts
             ∧ save_instance instance vd (Some ts) s = (r, s')).
Proof.
  destruct (count_rules_dec partial (tags_data (data req))) as [Hbad | Hok].
  { rewrite (update_count_violation _ _ _ _ Hbad). intros [= <- <-]. eauto. }
  rewrite (update_count_ok _ _ _ _ Hok). unfold bind.
  destruct (get_object req pk s) as [[instance|e1] s1] eqn:Hget;
    [| destruct (get_object_store req pk s) as [r1 Hs];
       rewrite Hs in Hget; injection Hget as _ <-; intros [= <- <-]; eauto].
  pose proof (get_object_Return _ _ _ _ _ Hget) as (-> & _ & _).
  unfold is_valid.
  destruct (run_validation partial (data req)) as [errors|vd] eqn:Hvd;
    [intros [= <- <-]; eauto |].
  simpl. rewrite perform_update_spec. intros Hrun.
  destruct Hok as [[-> Hnone] | [Ht Hlen]].
  - rewrite Hnone in Hrun. simpl in Hrun.
    right. exists instance, vd. repeat split; try done. left. done.
  - rewrite Ht in Hrun.
    destruct (tags_data (data req)) as [names|] eqn:Hn; [| done].
    simpl in Hrun, Hlen.
    destruct (mapM (resolve s) names) as [ts|] eqn:Hm.
    + right. exists instance, vd. repeat split; try done. right.
      exists names, ts. repeat split; try done.
      by apply truthy_Some_length.
    + injection Hrun as <- <-. eauto.
Qed.

Lemma save_instance_columns instance vd tags_kw s r s' :
  save_instance instance vd tags_kw s = (r, s') →
  Tag_rows s' = Tag_rows s
  ∧ Reply_rows s' = Reply_rows s
  ∧ post_id <$> Post_rows s' = post_id <$> Post_rows s
  ∧ (NoDup (post_id <$> Post_rows s) → instance ∈ Post_rows s →
     author <$> Post_rows s' = author <$> Post_rows s
     ∧ created_time <$> Post_rows s' = created_time <$> Post_rows s).
Proof.
  unfold save_instance. intros [= <- <-]. simpl.
  rewrite <- !list_fmap_compose. split; [done |]. split; [done |]. split.
  - apply list_fmap_ext. intros i x Hx. simpl. by case_decide.
  - intros Hnd Hin.
    split; apply list_fmap_ext; intros i x Hx; simpl;
      (destruct (decide (post_id x = post_id instance)) as [Heq|]; [| done]);
      apply list_elem_of_lookup_2 in Hx; simpl;
      by rewrite (NoDup_fmap_elem_inj post_id _ x instance Hnd Hx Hin Heq).
Qed.

(** X7: the order in which [update] reports errors once the count rules
    pass and the post is found: a failed object permission first, then
    the serializer's errors, and an unknown tag name only when both
    passed. *)
Theorem update_error_precedence (req : Request) (pk : Z) (partial : bool)
    (s : Store) (instance : Post) :
  (partial = true ∧ tags_data (data req) = None)
  ∨ (truthy (tags_data (data req)) = true
     ∧ (len (tags_data (data req)) ≤ 3)%nat) →
  head (filter (λ p, post_id p = pk) (filter_queryset req s)) = Some instance →
  (has_object_permission req instance = false →
   update req pk partial s = (Raise PermissionDenied, s))
  ∧ (has_object_permission req instance = true →
     ∀ errors, run_validation partial (data req) = inl errors →
     update req pk partial s = (Raise (ValidationError errors), s))
  ∧ (has_object_permission req instance = true →
     ∀ vd, run_validation partial (data req) = inr vd →
     Exists (λ name, resolve s name = None) (names_of (tags_data (data req))) →
     update req pk partial s = (Raise UnknownTag, s)).
Proof.
  intros Hok Hhead. rewrite (update_count_ok _ _ _ _ Hok).
  unfold bind, get_object. rewrite Hhead. repeat split.
  - by intros ->.
  - intros -> errors Hvd. unfold is_valid. by rewrite Hvd.
  - intros -> vd Hvd Hex. unfold is_valid. rewrite Hvd. simpl.
    rewrite perform_update_spec, (mapM_None_2 _ _ Hex).
    destruct (truthy _) eqn:Ht; [done |].
    destruct (tags_data (data req)) as [[|? ?]|]; simpl in *;
      first [discriminate Ht | by apply Exists_nil in Hex].
Qed.

(** X8: what a successful [update] returns: the post found under the
    given id, with its id, author and creation time as they were; with a
    tags field its tag set is replaced by exactly the tags the names
    resolve to (between 1 and 3), without one (partial only) it is kept;
    in the store the rows with that id hold the returned post and every
    other row is as before. *)
Theorem update_result (req : Request) (pk : Z) (partial : bool)
    (s s' : Store) (p : Post) :
  update req pk partial s = (Return p, s') →
  ∃ instance,
    instance ∈ Post_rows s ∧ post_id instance = pk
    ∧ post_id p = pk
    ∧ author p = author instance
    ∧ created_time p = created_time instance
    ∧ match tags_data (data req) with
      | None => partial = true ∧ tags p = tags instance
      | Some names =>
          (1 ≤ size (tags p) ≤ 3)%nat
          ∧ ∀ i, i ∈ tags p ↔
                 ∃ name t, name ∈ names ∧ resolve s name = Some t
                           ∧ tag_id t = i
      end
    ∧ Post_rows s' =
      (λ r, if decide (post_id r = pk) then p else r) <$> Post_rows s.
Proof.
  intros Hrun.
  destruct (update_inv _ _ _ _ _ _ Hrun)
    as [(e & [=] & _) | (instance & vd & Hget & _ & Hsave)].
  apply get_object_Return in Hget as (_ & Hin & Hpk).
  exists instance. split; [done |]. split; [done |].
  destruct Hsave as [(-> & Hnone & Hsave) | (names & ts & Hn & Hlen & Hm & Hsave)];
    unfold save_instance in Hsave; injection Hsave as <- <-; simpl;
    rewrite Hpk.
  - rewrite Hnone. done.
  - rewrite Hn. repeat split; try done.
    + apply mapM_Some_1 in Hm. pose proof (Forall2_length _ _ _ Hm) as Hl.
      apply size_list_to_set_bounds.
      destruct ts; [simpl in Hl; lia | done].
    + apply mapM_Some_1 in Hm. pose proof (Forall2_length _ _ _ Hm) as Hl.
      etransitivity; [apply size_list_to_set_bounds |].
      * destruct ts; [simpl in Hl; lia | done].
      * rewrite length_fmap. lia.
    + apply mapM_Some_1 in Hm.
      rewrite elem_of_list_to_set, list_elem_of_fmap.
      intros (t & -> & Ht).
      apply list_elem_of_lookup in Ht as [k Hk].
      destruct (Forall2_lookup_r _ _ _ _ _ Hm Hk) as (name & Hname & Hres).
      exists name, t. repeat split; [| done].
      by eapply list_elem_of_lookup_2.
    + apply mapM_Some_1 in Hm.
      intros (name & t & Hname & Hres & <-).
      rewrite elem_of_list_to_set, list_elem_of_fmap.
      exists t. split; [done |].
      apply list_elem_of_lookup in Hname as [k Hk].
      destruct (Forall2_lookup_l _ _ _ _ _ Hm Hk) as (t' & Ht' & Hres').
      rewrite Hres in Hres'. injection Hres' as <-.
      by eapply list_elem_of_lookup_2.
Qed.

(** X9: the handlers write to the posts only, and keep its keys: after
    any run of [create] or [update] the tag and reply tables are as
    before; [create] keeps the earlier posts as a prefix and keeps the
    primary keys free of duplicates; [update] leaves the column of
    primary keys as it was and, the keys being unique, also the authors
    and the creation times. *)
Theorem handlers_write_posts_only (now : datetime) (req : Request) (pk : Z)
    (partial : bool) (s : Store) :
  (∀ r s', create now req s = (r, s') →
     Tag_rows s' = Tag_rows s
     ∧ Reply_rows s' = Reply_rows s
     ∧ Post_rows s `prefix_of` Post_rows s'
     ∧ (NoDup (post_id <$> Post_rows s) → NoDup (post_id <$> Post_rows s')))
  ∧ (∀ r s', update req pk partial s = (r, s') →
     Tag_rows s' = Tag_rows s
     ∧ Reply_rows s' = Reply_rows s
     ∧ post_id <$> Post_rows s' = post_id <$> Post_rows s
     ∧ (NoDup (post_id <$> Post_rows s) →
        author <$> Post_rows s' = author <$> Post_rows s
        ∧ created_time <$> Post_rows s' = created_time <$> Post_rows s)).
Proof.
  split.
  - intros [p|e] s' Hrun.
    + apply create_Return in Hrun as (vd & _ & Hrun).
      apply perform_create_Return in Hrun as (names & ts & _ & _ & _ & Hsave).
      unfold save_new in Hsave. injection Hsave as <- <-. simpl.
      repeat split; try done.
      * by apply prefix_app_r.
      * intros Hnd. rewrite fmap_app. apply NoDup_app. repeat split; try done.
        -- intros x Hx Hnew. simpl in Hnew.
           apply list_elem_of_singleton in Hnew as ->.
           by apply (next_pk_fresh s).
        -- simpl. apply NoDup_singleton.
    + apply create_Raise in Hrun as ->. done.
  - intros r s' Hrun.
    destruct (update_inv _ _ _ _ _ _ Hrun)
      as [(e & _ & ->) | (instance & vd & Hget & _ & Hsave)]; [done |].
    apply get_object_Return in Hget as (_ & Hin & _).
    assert (∃ tags_kw, save_instance instance vd tags_kw s = (r, s'))
      as [tags_kw Hs].
    { destruct Hsave as [(_ & _ & Hs) | (names & ts & _ & _ & _ & Hs)]; eauto. }
    destruct (save_instance_columns _ _ _ _ _ _ Hs) as (Ht & Hr & Hid & Hcols).
    split; [done |]. split; [done |]. split; [done |].
    intros Hnd. by apply Hcols.
Qed.

(** * [retrieve], and reading back what was written *)

(** The lookup of [get_object] finds a post that is the only stored one
    with its primary key, provided the request's tag filter lets it
    through and the object permission is granted. *)
Lemma get_object_unique req s p :
  p ∈ tags_filter s (query_tags req) (Post_rows s) →
  (∀ x, x ∈ Post_rows s → post_id x = post_id p → x = p) →
  has_object_permission req p = true →
  get_object req (post_id p) s = (Return p, s).
Proof.
  intros Hin Huniq Hperm. unfold get_object.
  set (found := filter (λ x, post_id x = post_id p) (filter_queryset req s)).
  assert (∀ x, x ∈ found → x = p) as Hall.
  { intros x Hx. apply list_elem_of_filter in Hx as [Hpk Hx].
    unfold filter_queryset, queryset in Hx.
    rewrite order_by_Permutation in Hx.
    apply Huniq; [| done].
    by apply tags_filter_subseteq in Hx. }
  assert (p ∈ found) as Hp.
  { apply list_elem_of_filter. split; [done |].
    unfold filter_queryset, queryset. by rewrite order_by_Permutation. }
  destruct found as [|x rest]; [by apply elem_of_nil in Hp |].
  rewrite (Hall x (list_elem_of_here _ _)). simpl. by rewrite Hperm.
Qed.

(** C9: [popular] draws from the [Post.public] manager, the listing and
    the detail view from [Post.objects]: a post that is not publicly
    visible is in the listing of a request without tag filter and is what
    [retrieve] returns for its id (primary keys being unique and the
    object permission granted), and it is in no result of [popular]. *)
Theorem popular_public_only (req : Request) (now_gt now_lt : datetime)
    (s : Store) (p : Post) :
  p ∈ Post_rows s →
  public p = false →
  query_tags req = [] →
  p ∈ list_posts req s
  ∧ (NoDup (post_id <$> Post_rows s) →
     has_object_permission req p = true →
     retrieve req (post_id p) s = (Return p, s))
  ∧ p ∉ popular now_gt now_lt s.
Proof.
  intros Hrow Hhidden Hq. split; [| split].
  - by rewrite list_posts_Permutation, Hq.
  - intros Hnd Hperm. unfold retrieve, bind.
    rewrite (get_object_unique req s p); [done | | | done].
    + by rewrite Hq.
    + intros x Hx Hpk. by apply (NoDup_fmap_elem_inj post_id (Post_rows s)).
  - intros Hp. apply popular_candidates in Hp as (_ & Hpub & _). congruence.
Qed.


(** X11: a post that [create] returned is what [retrieve] returns for
    its id right afterwards, to every requester who holds the object
    permission and sends no tag filter. *)
Theorem create_then_retrieve (now : datetime) (req req' : Request)
    (s s' : Store) (p : Post) :
  create now req s = (Return p, s') →
  query_tags req' = [] →
  has_object_permission req' p = true →
  retrieve req' (post_id p) s' = (Return p, s').
Proof.
  intros Hrun Hq Hperm.
  apply create_Return in Hrun as (vd & _ & Hrun).
  apply perform_create_Return in Hrun as (names & ts & _ & _ & _ & Hsave).
  unfold save_new in Hsave. injection Hsave as Hp Hs.
  assert (Post_rows s' = Post_rows s ++ [p]) as Hrows
    by (rewrite <- Hs, <- Hp; done).
  assert (post_id p ∉ post_id <$> Post_rows s) as Hfresh
    by (rewrite <- Hp; apply next_pk_fresh).
  unfold retrieve, bind.
  rewrite (get_object_unique req' s' p); [done | | | done].
  - rewrite Hq, Hrows. simpl. apply elem_of_app. right. apply list_elem_of_here.
  - intros x Hx Hpk. rewrite Hrows in Hx.
    apply elem_of_app in Hx as [Hx | Hx].
    + destruct Hfresh. rewrite <- Hpk. by apply list_elem_of_fmap_2.
    + by apply list_elem_of_singleton in Hx.
Qed.

(** X12: [popular] hands out stored posts and no more copies of a post
    than the post table holds: with distinct rows no post is listed
    twice. *)
Theorem popular_submseteq (now_gt now_lt : datetime) (s : Store) :
  popular now_gt now_lt s ⊆+ Post_rows s
  ∧ (NoDup (Post_rows s) → NoDup (popular now_gt now_lt s)).
Proof.
  assert (popular now_gt now_lt s ⊆+ Post_rows s) as Hsub.
  { unfold popular, Post_public.
    etransitivity; [apply submseteq_take |].
    rewrite order_by_Permutation.
    etransitivity; apply sublist_submseteq, sublist_filter. }
  split; [done |]. intros Hnd.
  apply submseteq_Permutation in Hsub as [k Hk].
  rewrite Hk in Hnd. by apply NoDup_app in Hnd as [Hnd _].
Qed.

(** * Sorting commutes with a renaming of the rows *)

Section sort_fmap.
Context {A B : Type} (f : A → B).
Context (R1 : relation A) (R2 : relation B).
Context `{∀ x y, Decision (R1 x y)} `{∀ x y, Decision (R2 x y)}.
Hypothesis R_fmap : ∀ x y, R2 (f x) (f y) ↔ R1 x y.

Local Abbreviation stack_fmap :=
  (fmap (M:=list) (fmap (M:=option) (fmap (M:=list) f))).

Lemma list_merge_fmap l1 l2 :
  list_merge R2 (f <$> l1) (f <$> l2) = f <$> list_merge R1 l1 l2.
Proof.
  revert l2. induction l1 as [|x1 l1 IH1]; intros l2; [by destruct l2 |].
  induction l2 as [|x2 l2 IH2]; [done |].
  rewrite !fmap_cons, !list_merge_cons.
  destruct (decide (R1 x1 x2)) as [H1|H1], (decide (R2 (f x1) (f x2))) as [H2|H2].
  - rewrite fmap_cons. f_equal. by rewrite <- IH1.
  - by apply R_fmap in H1.
  - by apply R_fmap in H2.
  - rewrite fmap_cons. f_equal. by rewrite <- IH2.
Qed.

Lemma merge_list_to_stack_fmap st l :
  merge_list_to_stack R2 (stack_fmap st) (f <$> l)
  = stack_fmap (merge_list_to_stack R1 st l).
Proof.
  revert l. induction st as [|[l'|] st IH]; intros l; simpl; [done | | done].
  f_equal. by rewrite list_merge_fmap, IH.
Qed.

Lemma merge_stack_fmap st :
  merge_stack R2 (stack_fmap st) = f <$> merge_stack R1 st.
Proof.
  induction st as [|[l'|] st IH]; simpl; [done | | done].
  rewrite <- list_merge_fmap. f_equal. exact IH.
Qed.

Lemma merge_sort_fmap l :
  merge_sort R2 (f <$> l) = f <$> merge_sort R1 l.
Proof.
  unfold merge_sort. change [] with (stack_fmap []) at 1.
  generalize (@nil (option (list A))) as st.
  induction l as [|x l IH]; intros st; simpl.
  - apply merge_stack_fmap.
  - change [f x] with (f <$> [x]).
    by rewrite merge_list_to_stack_fmap, IH.
Qed.

End sort_fmap.

Lemma order_by_fmap {A B} (f : A → B) (cols1 : list (Column A))
    (cols2 : list (Column B)) rows :
  (∀ x y, lexicographic cols2 (f x) (f y) = lexicographic cols1 x y) →
  order_by cols2 (f <$> rows) = f <$> order_by cols1 rows.
Proof.
  intros Hcols. unfold order_by. apply merge_sort_fmap.
  intros x y. unfold not_after. by rewrite Hcols.
Qed.

Lemma filter_fmap_eq {A B} (f : A → B) (P : B → Prop)
    `{∀ y, Decision (P y)} (l : list A) :
  filter P (f <$> l) = f <$> filter (λ x, P (f x)) l.
Proof.
  induction l as [|x l IH]; [done |].
  rewrite fmap_cons, !filter_cons, IH. by destruct (decide (P (f x))).
Qed.

(** X13: pinning plays no part in [popular]: setting the pinned flags of
    the posts anew gives the same posts in the same order (given that the
    public manager does not look at the flag). *)
Theorem popular_ignores_pinned (flag : Post → bool) (now_gt now_lt : datetime)
    (s : Store) :
  (∀ p, public (set_pinned flag p) = public p) →
  popular now_gt now_lt (repin flag s)
  = set_pinned flag <$> popular now_gt now_lt s.
Proof.
  intros Hpublic. unfold popular, Post_public. simpl.
  rewrite fmap_take. f_equal.
  rewrite !filter_fmap_eq.
  assert (filter (λ x, public (set_pinned flag x)) (Post_rows s)
          = filter (λ p, public p) (Post_rows s)) as ->
    by (apply list_filter_iff; intros p; by rewrite Hpublic).
  by apply (order_by_fmap (set_pinned flag) (popular_columns s)).
Qed.

(** * Pages of the listing *)

Lemma num_pages_spec c :
  (1 ≤ num_pages c)%nat
  ∧ (c ≤ num_pages c * page_size)%nat
  ∧ ((num_pages c - 1) * page_size < Nat.max 1 c)%nat.
Proof.
  unfold num_pages, page_size.
  pose proof (Nat.div_mod_eq (Nat.max 1 c + 20 - 1) 20).
  pose proof (Nat.mod_upper_bound (Nat.max 1 c + 20 - 1) 20).
  lia.
Qed.

Lemma paginate_queryset_Some n rows :
  (1 ≤ n ≤ num_pages (length rows))%nat →
  paginate_queryset n rows
  = Some (take page_size (drop ((n - 1) * page_size) rows)).
Proof.
  intros [Hlo Hhi]. unfold paginate_queryset.
  apply Nat.leb_le in Hlo, Hhi. by rewrite Hlo, Hhi.
Qed.

Lemma paginate_queryset_None n rows :
  paginate_queryset n rows = None ↔ n = 0%nat ∨ (num_pages (length rows) < n)%nat.
Proof.
  unfold paginate_queryset.
  destruct (Nat.leb_spec 1 n) as [Hlo|Hlo],
           (Nat.leb_spec n (num_pages (length rows))) as [Hhi|Hhi];
    simpl; split; intros Hx;
    first [reflexivity | discriminate Hx | lia | exfalso; lia].
Qed.

Lemma pages_concat rows k :
  (k ≤ num_pages (length rows))%nat →
  mjoin ((λ n, default [] (paginate_queryset n rows)) <$> seq 1 k)
  = take (k * page_size) rows.
Proof.
  induction k as [|k IH]; intros Hk; [done |].
  assert (k ≤ num_pages (length rows))%nat as Hk' by lia.
  rewrite seq_S, fmap_app, join_app, (IH Hk'). simpl.
  rewrite paginate_queryset_Some by lia. simpl.
  rewrite app_nil_r. replace (k - 0)%nat with k by lia.
  rewrite take_take_drop. f_equal. unfold page_size. lia.
Qed.

(** X14: the pages of a listing: a page holds at most 20 posts and every
    page before the last exactly 20, [count] is the size of the whole
    listing on every page, and the pages 1 to the last, one after the
    other, are the listing: no post is lost, repeated or moved by
    paging. *)
Theorem list_pages_cover (req : Request) (s : Store) :
  (∀ n resp s', list_page req n s = (Return resp, s') →
     s' = s
     ∧ count resp = length (list_posts req s)
     ∧ posts resp = take 20 (drop ((n - 1) * 20) (list_posts req s))
     ∧ (length (posts resp) ≤ 20)%nat
     ∧ ((n < num_pages (length (list_posts req s)))%nat →
        length (posts resp) = 20%nat))
  ∧ mjoin ((λ n, match list_page req n s with
                 | (Return resp, _) => posts resp
                 | (Raise _, _) => []
                 end) <$> seq 1 (num_pages (length (list_posts req s))))
    = list_posts req s.
Proof.
  split.
  - intros n resp s'. unfold list_page, list_posts.
    destruct (paginate_queryset n (filter_queryset req s)) as [page|] eqn:Hp;
      [| done].
    intros [= <- <-]. simpl.
    assert (paginate_queryset n (filter_queryset req s) ≠ None) as Hn
      by congruence.
    rewrite paginate_queryset_None in Hn.
    rewrite paginate_queryset_Some in Hp by lia.
    injection Hp as <-. unfold page_size.
    repeat split; try done.
    + rewrite length_take. lia.
    + intros Hlast. rewrite length_take, length_drop.
      pose proof (num_pages_spec (length (filter_queryset req s)))
        as (_ & _ & Hfull).
      unfold page_size in Hfull. nia.
  - unfold list_posts. set (rows := filter_queryset req s).
    transitivity (take (num_pages (length rows) * page_size) rows);
      [| apply take_ge, num_pages_spec].
    rewrite <- pages_concat by done.
    f_equal. apply list_fmap_ext. intros i n _. unfold list_page.
    fold rows. by destruct (paginate_queryset n rows).
Qed.

End PostViewSet.

(** * The theorems at concrete requests *)

(** C1 as the spec words it fails: the source orders by
    ['-latest_reply_time'] without fixing where NULL goes, and on a
    backend where NULL collates above every value the unpinned post D,
    which has no replies, is listed before the unpinned post B, which
    has. *)
Lemma listing_no_replies_first :
  list_posts NullsLargest (sample_request 7 None []) nulls_store
  = [post_D; post_B]
  ∧ pinned post_D = pinned post_B
  ∧ latest_reply_time nulls_store post_D = None
  ∧ latest_reply_time nulls_store post_B = Some (day 5).
Proof. repeat split; vm_compute; reflexivity. Qed.

Lemma listing_composite_order_witness :
  list_posts NullsSmallest (sample_request 7 None []) listing_store
  = [post_A; post_B; post_C].
Proof.
  refine (proj2 (proj2 (listing_composite_order NullsSmallest
            listing_store (sample_request 7 None [])))
            post_A post_B post_C 0%Z _ _ _ _ _ _ _ _ _).
  - reflexivity.
  - apply perm_swap.
  - reflexivity.
  - vm_compute; reflexivity.
  - vm_compute; reflexivity.
  - reflexivity.
  - vm_compute; reflexivity.
  - reflexivity.
  - vm_compute; reflexivity.
Defined.

Lemma listing_tag_filter_witness :
  post_B ∈ list_posts NullsSmallest (sample_request 7 None ["2"]) listing_store.
Proof.
  destruct (proj1 (listing_tag_filter NullsSmallest listing_store
                     (sample_request 7 None ["2"]))) as [_ Hmem].
  - done.
  - apply Forall_cons_2; [| apply Forall_nil_2].
    exists {| tag_id := 2; tag_name := "django" |}. split; [| reflexivity].
    apply list_elem_of_further, list_elem_of_here.
  - apply Hmem. split.
    + apply list_elem_of_here.
    + exists {| tag_id := 2; tag_name := "django" |}. split; [| split].
      * apply list_elem_of_further, list_elem_of_here.
      * apply list_elem_of_here.
      * apply elem_of_list_to_set, list_elem_of_further, list_elem_of_here.
Defined.

(** C8 as the spec words it fails: post B carries the tag named
    "django", yet the listing filtered by that name is empty, because
    the filter reads its values as primary keys. *)
Lemma listing_tag_filter_by_name :
  post_B ∈ Post_rows listing_store
  ∧ (∃ t, t ∈ Tag_rows listing_store ∧ tag_name t = "django"
          ∧ tag_id t ∈ tags post_B)
  ∧ list_posts NullsSmallest (sample_request 7 None ["django"]) listing_store
    = [].
Proof.
  split; [apply list_elem_of_here |]. split.
  - exists {| tag_id := 2; tag_name := "django" |}. split; [| split].
    + apply list_elem_of_further, list_elem_of_here.
    + reflexivity.
    + apply elem_of_list_to_set, list_elem_of_further, list_elem_of_here.
  - vm_compute. reflexivity.
Qed.

Lemma popular_store_result :
  popular NullsSmallest sample_public (day 10) (day 10) popular_store
  = [post_X; post_Y].
Proof. vm_compute. reflexivity. Qed.

Lemma popular_recency_window_witness :
  ((0 < num_replies popular_store post_Y)%Z
   ∧ ∃ t, latest_reply_time popular_store post_Y = Some t
          ∧ (day 10 - 48 * 3600000000 < t)%Z ∧ (t < day 10)%Z)
  ∧ post_Z ∉ popular NullsSmallest sample_public (day 10) (day 10) popular_store.
Proof.
  pose proof (popular_recency_window NullsSmallest sample_public
                (day 10) (day 10) popular_store) as Hwin.
  split.
  - apply (proj1 (Hwin post_Y)).
    rewrite popular_store_result.
    apply list_elem_of_further, list_elem_of_here.
  - apply (proj1 (proj2 (proj2 (Hwin post_Z)))).
    apply (bool_decide_unpack _). by vm_compute.
Defined.

Lemma popular_ranked_top_ten_witness :
  popular NullsSmallest sample_public (day 10) (day 10) popular_store
  = [post_X; post_Y].
Proof.
  refine (proj2 (proj2 (proj2 (popular_ranked_top_ten NullsSmallest
            sample_public (day 10) (day 10) popular_store)))
            post_X post_Y post_Z (day 10) eq_refl eq_refl _ _ _ _ _ _ _ _ _).
  - exact (reverse_Permutation [post_X; post_Y; post_Z]).
  - reflexivity.
  - reflexivity.
  - vm_compute; reflexivity.
  - apply (bool_decide_unpack _); by vm_compute.
  - vm_compute; reflexivity.
  - apply (bool_decide_unpack _); by vm_compute.
  - vm_compute; reflexivity.
  - apply (bool_decide_unpack _); by vm_compute.
Defined.

Lemma popular_public_only_witness :
  post_hidden ∈ list_posts NullsSmallest (sample_request 7 None [])
                  hidden_store
  ∧ retrieve NullsSmallest sample_permission (sample_request 7 None [])
      (post_id post_hidden) hidden_store
    = (Return post_hidden, hidden_store)
  ∧ post_hidden ∉ popular NullsSmallest sample_public (day 10) (day 10)
                    hidden_store.
Proof.
  destruct (popular_public_only NullsSmallest sample_public sample_permission
              (sample_request 7 None []) (day 10) (day 10) hidden_store
              post_hidden)
    as (Hlisted & Hdetail & Hpopular).
  - apply list_elem_of_here.
  - reflexivity.
  - reflexivity.
  - split; [exact Hlisted |]. split; [| exact Hpopular].
    apply Hdetail; [| reflexivity].
    apply (bool_decide_unpack _). by vm_compute.
Defined.

Lemma create_tag_rules_witness :
  perform_create (day 9) (sample_request 8 None []) sample_validated
    listing_store = (Raise EmptyTagSelection, listing_store)
  ∧ perform_create (day 9) (sample_request 8 (Some ["orm"; "flask"]) [])
      sample_validated listing_store = (Raise UnknownTag, listing_store)
  ∧ ∃ p, perform_create (day 9)
           (sample_request 8 (Some ["python"; "django"]) [])
           sample_validated listing_store
         = (Return p, {| Post_rows := Post_rows listing_store ++ [p];
                         Tag_rows := Tag_rows listing_store;
                         Reply_rows := Reply_rows listing_store |})
         ∧ author p = 8%Z
         ∧ tags p = list_to_set [1; 2]%Z.
Proof.
  split; [| split].
  - apply (proj1 (create_tag_rules sample_validation (day 9)
                    (sample_request 8 None []) sample_validated listing_store)).
    by left.
  - apply (proj1 (proj2 (proj2 (create_tag_rules sample_validation (day 9)
                    (sample_request 8 (Some ["orm"; "flask"]) [])
                    sample_validated listing_store))) ["orm"; "flask"]).
    + reflexivity.
    + simpl. lia.
    + left. apply Exists_cons_tl, Exists_cons_hd. reflexivity.
  - destruct (proj1 (proj2 (proj2 (proj2 (create_tag_rules sample_validation
                (day 9) (sample_request 8 (Some ["python"; "django"]) [])
                sample_validated listing_store))))
                ["python"; "django"]
                [ {| tag_id := 1; tag_name := "python" |};
                  {| tag_id := 2; tag_name := "django" |} ])
      as (p & Hrun & Hauthor & _ & Htags & _).
    + reflexivity.
    + simpl. lia.
    + repeat apply Forall2_cons_2; [reflexivity | reflexivity | apply Forall2_nil_2].
    + exists p. done.
Defined.

Lemma partial_update_tags_witness :
  ∃ p s', update NullsSmallest sample_validation sample_permission
            (sample_request 7 None []) 2 true listing_store = (Return p, s')
          ∧ post_id p = 2%Z ∧ tags p = tags post_B.
Proof.
  destruct (partial_update_tags NullsSmallest sample_validation
              sample_permission (sample_request 7 None []) 2 listing_store)
    as [Habsent _].
  destruct (Habsent eq_refl) as (_ & Hsaved & _).
  apply (Hsaved post_B sample_validated).
  - vm_compute. reflexivity.
  - reflexivity.
Defined.

Lemma tag_failure_writes_nothing_witness :
  (∃ e, create sample_validation (day 9)
          (sample_request 8 (Some ["python"; "flask"]) []) listing_store
        = (Raise e, listing_store))
  ∧ (∃ e, update NullsSmallest sample_validation sample_permission
            (sample_request 7 (Some ["python"; "flask"]) []) 2 false
            listing_store
          = (Raise e, listing_store)).
Proof.
  pose proof (tag_failure_writes_nothing NullsSmallest
                sample_validation sample_permission (day 9)) as Hw.
  assert (Exists (λ name, resolve listing_store name = None)
                 ["python"; "flask"]) as Hex
    by (apply Exists_cons_tl, Exists_cons_hd; reflexivity).
  split.
  - apply (proj1 (Hw (sample_request 8 (Some ["python"; "flask"]) []) 2%Z false
                     listing_store)).
    by right.
  - apply (proj1 (proj2 (Hw (sample_request 7 (Some ["python"; "flask"]) [])
                            2%Z false listing_store))).
    by right.
Defined.

Lemma unknown_tag_error_witness :
  perform_create (day 9) (sample_request 8 (Some ["flask"]) [])
    sample_validated listing_store
  = (Raise (ValidationError [("标签", "标签不存在")]), listing_store)
  ∧ perform_update (sample_request 7 (Some ["flask"]) []) post_B
      sample_validated listing_store
    = (Raise (ValidationError [("标签", "标签不存在")]), listing_store).
Proof.
  destruct (unknown_tag_error (day 9) (sample_request 8 (Some ["flask"]) [])
              post_B sample_validated listing_store ["flask"] eq_refl)
    as [Hcreate _]; [apply Exists_cons_hd; reflexivity |].
  destruct (unknown_tag_error (day 9) (sample_request 7 (Some ["flask"]) [])
              post_B sample_validated listing_store ["flask"] eq_refl)
    as [_ Hupdate]; [apply Exists_cons_hd; reflexivity |].
  split; [apply Hcreate; simpl; lia | exact Hupdate].
Defined.

(** C7 as the spec words it fails: no reading of the raised error can
    give back the name that did not resolve, since two requests that
    differ only in the unknown name raise the same error. *)
Lemma unknown_tag_error_hides_name :
  ¬ ∃ name_of : Exception → string,
      ∀ now req vd s name e s',
        tags_data (data req) = Some [name] →
        resolve s name = None →
        perform_create now req vd s = (Raise e, s') →
        name_of e = name.
Proof.
  intros [name_of Hid].
  pose proof (Hid (day 9) (sample_request 8 (Some ["flask"]) [])
                sample_validated listing_store "flask" UnknownTag
                listing_store eq_refl eq_refl eq_refl) as Hflask.
  pose proof (Hid (day 9) (sample_request 8 (Some ["rails"]) [])
                sample_validated listing_store "rails" UnknownTag
                listing_store eq_refl eq_refl eq_refl) as Hrails.
  rewrite Hflask in Hrails. discriminate Hrails.
Qed.

Lemma update_count_before_lookup_witness :
  update NullsSmallest sample_validation sample_permission
    (sample_request 7 (Some []) []) 99 false listing_store
  = (Raise EmptyTagSelection, listing_store)
  ∧ update NullsSmallest sample_validation sample_permission
      (sample_request 7 (Some ["python"]) []) 99 false listing_store
    = (Raise Http404, listing_store).
Proof.
  pose proof (update_count_before_lookup NullsSmallest
                sample_validation sample_permission) as Hu.
  split.
  - apply (proj1 (Hu (sample_request 7 (Some []) []) 99%Z false listing_store)).
    + by intros [? _].
    + reflexivity.
  - apply (proj2 (proj2 (proj2 (Hu (sample_request 7 (Some ["python"]) [])
                                   99%Z false listing_store)))).
    + right. exists ["python"]. split; [reflexivity | simpl; lia].
    + intros p Hp. simpl in Hp.
      rewrite !elem_of_cons, elem_of_nil in Hp.
      by destruct Hp as [-> | [-> | [-> | []]]].
    + unfold in_key_range. lia.
Defined.

Lemma for_name_in_resolved_witness :
  ∃ found, tag_name <$> found = ["django"; "python"]
           ∧ Forall (λ t, t ∈ Tag_rows listing_store) found.
Proof.
  destruct (for_name_in_resolved ["django"; "python"] []
              [ {| tag_id := 2; tag_name := "django" |};
                {| tag_id := 1; tag_name := "python" |} ]
              listing_store listing_store eq_refl)
    as (_ & found & _ & Hnames & Hstored).
  by exists found.
Defined.

Lemma duplicate_tag_name_is_unknown_witness :
  Tag_objects_get "orm" duplicate_tags_store
  = (Raise MultipleObjectsReturned, duplicate_tags_store)
  ∧ perform_create (day 9) (sample_request 8 (Some ["python"; "orm"]) [])
      sample_validated duplicate_tags_store
    = (Raise UnknownTag, duplicate_tags_store).
Proof.
  destruct (duplicate_tag_name_is_unknown (day 9)
              (sample_request 8 (Some ["python"; "orm"]) []) post_B
              sample_validated duplicate_tags_store ["python"; "orm"] "orm"
              eq_refl)
    as (Hget & Hcreate & _).
  - apply list_elem_of_further, list_elem_of_here.
  - vm_compute. lia.
  - split; [exact Hget | apply Hcreate; simpl; lia].
Defined.

Lemma create_succeeds_iff_witness :
  ∃ p s', create sample_validation (day 9)
            (sample_request 8 (Some ["python"; "django"]) []) listing_store
          = (Return p, s').
Proof.
  apply (proj2 (proj1 (create_succeeds_iff sample_validation (day 9)
           (sample_request 8 (Some ["python"; "django"]) []) listing_store))).
  exists sample_validated, ["python"; "django"].
  split; [reflexivity |]. split; [reflexivity |]. split; [simpl; lia |].
  repeat apply Forall_cons_2; [by eexists | by eexists | apply Forall_nil_2].
Defined.

Lemma create_result_witness :
  ∃ p s', create sample_validation (day 9)
            (sample_request 8 (Some ["python"; "python"]) []) listing_store
          = (Return p, s')
          ∧ Post_rows s' = Post_rows listing_store ++ [p]
          ∧ author p = 8%Z
          ∧ (1 ≤ size (tags p) ≤ 3)%nat
          ∧ post_id p ∉ post_id <$> Post_rows listing_store.
Proof.
  destruct (create sample_validation (day 9)
              (sample_request 8 (Some ["python"; "python"]) []) listing_store)
    as [[p|e] s'] eqn:Hrun; [| vm_compute in Hrun; discriminate Hrun].
  destruct (create_result sample_validation (day 9) _ _ _ _ Hrun)
    as (Hrows & _ & _ & Hauthor & _ & Hsize & _ & Hfresh).
  by exists p, s'.
Defined.

Lemma update_error_precedence_witness :
  update NullsSmallest sample_validation sample_permission
    (sample_request 8 (Some ["flask"]) []) 2 false listing_store
  = (Raise PermissionDenied, listing_store).
Proof.
  apply (proj1 (update_error_precedence NullsSmallest
                  sample_validation sample_permission
                  (sample_request 8 (Some ["flask"]) []) 2%Z false
                  listing_store post_B
                  (or_intror (conj eq_refl (le_S _ _ (le_S _ _ (le_n 1)))))
                  eq_refl)).
  reflexivity.
Defined.

Lemma update_result_witness :
  ∃ p s', update NullsSmallest sample_validation sample_permission
            (sample_request 7 (Some ["orm"]) []) 2 false listing_store
          = (Return p, s')
          ∧ post_id p = 2%Z
          ∧ author p = 7%Z
          ∧ (∀ i, i ∈ tags p ↔
               ∃ name t, name ∈ ["orm"] ∧ resolve listing_store name = Some t
                         ∧ tag_id t = i).
Proof.
  destruct (update NullsSmallest sample_validation sample_permission
              (sample_request 7 (Some ["orm"]) []) 2 false listing_store)
    as [[p|e] s'] eqn:Hrun; [| vm_compute in Hrun; discriminate Hrun].
  destruct (update_result NullsSmallest sample_validation
              sample_permission _ _ _ _ _ _ Hrun)
    as (instance & Hin & Hpk & Hid & Hauthor & _ & [_ Htags] & _).
  exists p, s'. split; [reflexivity |]. split; [done |]. split; [| done].
  rewrite Hauthor.
  simpl in Hin. rewrite !elem_of_cons, elem_of_nil in Hin.
  destruct Hin as [-> | [-> | [-> | []]]]; first [reflexivity | discriminate Hpk].
Defined.

Lemma handlers_write_posts_only_witness :
  ∃ r s', update NullsSmallest sample_validation sample_permission
            (sample_request 7 (Some ["orm"]) []) 2 false listing_store
          = (r, s')
          ∧ author <$> Post_rows s' = author <$> Post_rows listing_store.
Proof.
  destruct (update NullsSmallest sample_validation sample_permission
              (sample_request 7 (Some ["orm"]) []) 2 false listing_store)
    as [r s'] eqn:Hrun.
  exists r, s'. split; [reflexivity |].
  destruct (proj2 (handlers_write_posts_only NullsSmallest
                     sample_validation sample_permission (day 9)
                     (sample_request 7 (Some ["orm"]) []) 2%Z false
                     listing_store) r s' Hrun)
    as (_ & _ & _ & Hcols).
  apply Hcols. apply (bool_decide_unpack _). by vm_compute.
Defined.


Lemma create_then_retrieve_witness :
  ∃ p s', create sample_validation (day 9)
            (sample_request 7 (Some ["python"]) []) listing_store
          = (Return p, s')
          ∧ retrieve NullsSmallest sample_permission
              (sample_request 7 None []) (post_id p) s' = (Return p, s').
Proof.
  destruct (create sample_validation (day 9)
              (sample_request 7 (Some ["python"]) []) listing_store)
    as [[p|e] s'] eqn:Hrun; [| vm_compute in Hrun; discriminate Hrun].
  exists p, s'. split; [reflexivity |].
  apply (create_then_retrieve NullsSmallest sample_validation
           sample_permission (day 9) _ _ _ _ _ Hrun); [reflexivity |].
  destruct (create_Return _ _ _ _ _ _ Hrun) as (vd & _ & Hperform).
  destruct (perform_create_Return _ _ _ _ _ _ Hperform)
    as (names & ts & _ & _ & _ & Hsave).
  unfold save_new in Hsave. injection Hsave as <- _. reflexivity.
Defined.

Lemma popular_submseteq_witness :
  NoDup (popular NullsSmallest sample_public (day 10) (day 10) popular_store).
Proof.
  apply (proj2 (popular_submseteq NullsSmallest sample_public
                  (day 10) (day 10) popular_store)).
  simpl. repeat apply NoDup_cons_2; try apply NoDup_nil_2;
    rewrite ?elem_of_cons, elem_of_nil;
    intros Hin; repeat destruct Hin as [Hin | Hin]; try done;
    apply (f_equal post_id) in Hin; discriminate Hin.
Defined.

Lemma popular_ignores_pinned_witness :
  popular NullsSmallest sample_public (day 10) (day 10)
    (repin (λ _, true) popular_store)
  = set_pinned (λ _, true)
      <$> popular NullsSmallest sample_public (day 10) (day 10) popular_store.
Proof.
  apply (popular_ignores_pinned NullsSmallest sample_public (λ _, true)).
  intros p. reflexivity.
Defined.

Lemma list_pages_cover_witness :
  ∃ resp s', list_page NullsSmallest (sample_request 7 None []) 3
               many_posts_store = (Return resp, s')
             ∧ count resp = 45%nat
             ∧ (length (posts resp) ≤ 20)%nat.
Proof.
  destruct (list_page NullsSmallest (sample_request 7 None []) 3
              many_posts_store)
    as [[resp|e] s'] eqn:Hrun; [| vm_compute in Hrun; discriminate Hrun].
  destruct (proj1 (list_pages_cover NullsSmallest
                     (sample_request 7 None []) many_posts_store)
              3%nat resp s' Hrun)
    as (_ & Hcount & _ & Hlen & _).
  exists resp, s'. split; [reflexivity |]. split; [| done].
  rewrite Hcount. rewrite list_posts_Permutation. reflexivity.
Defined.
